(** * The remote sensorimotor bridge of gym_miniworld

    A shallow embedding of [gym_miniworld/envs/remotebot.py] (the [recv_array]
    function and the [RemoteBot] class) and of the constructors of the three
    simulated environments [Hallway], [ThreeRooms] and [SimToRealGoTo].

    Modelling conventions.
    - Python integers are unbounded: they are [Z].
    - A Python exception is an [exn]; a computation either returns, raises or
      blocks for ever on a socket receive ([outcome]).  State changes made
      before an exception is raised persist, as in Python.
    - The zmq socket is a mutable object shared by reference: the session
      stores a reference into the table of sockets of the [World].
    - numpy and pyzmq are external libraries; they are modelled by their
      documented behaviour.  Implementation limits of numpy (the range of
      [npy_intp], the maximal number of dimensions) are not modelled. *)

From Stdlib Require Import ZArith List String Lia Bool.
From Stdlib.Strings Require Import Byte.
From stdpp Require Import base option list strings.
Import ListNotations.

Set Warnings "-register-all".

Local Open Scope string_scope.
Local Open Scope Z_scope.

(** ** Python values *)

(** The values [json] can carry (numbers with a fraction are left out: no
    command or header of the bridge uses them). *)
Inductive json : Type :=
| JNull
| JBool (b : bool)
| JInt (n : Z)
| JStr (s : string)
| JList (l : list json)
| JObj (kv : list (string * json)).

(** A [dict] with string keys, in insertion order (a key occurs once). *)
Definition dict := list (string * json).

Inductive exn : Type :=
| ValueError
| TypeError
| KeyError
| AttributeError
| AssertionError
| JSONDecodeError
| ZMQError.

Inductive result (A : Type) : Type :=
| Ok (a : A)
| Err (e : exn).
Arguments Ok {A} a.
Arguments Err {A} e.

Fixpoint dict_get (kv : dict) (key : string) : option json :=
  match kv with
  | [] => None
  | (k, v) :: kv' => if String.eqb k key then Some v else dict_get kv' key
  end.

(** [md[key]] for a value [md] that came out of [recv_json]: only a dict can
    be indexed by a string. *)
Definition getitem (md : json) (key : string) : result json :=
  match md with
  | JObj kv =>
      match dict_get kv key with
      | Some v => Ok v
      | None => Err KeyError
      end
  | _ => Err TypeError
  end.

(** ** IntEnum *)

Module IntEnum.

Record member : Type := { name : string; value : Z }.

(** The canonical members of an enumeration class, in definition order. *)
Definition t := list member.

(** [E(v)]: look a member up by value; [ValueError] when there is none. *)
Fixpoint call (E : t) (v : Z) : result member :=
  match E with
  | [] => Err ValueError
  | m :: E' => if value m =? v then Ok m else call E' v
  end.

(** [E.n]: look a member up by name; [AttributeError] when there is none. *)
Fixpoint getattr (E : t) (n : string) : result member :=
  match E with
  | [] => Err AttributeError
  | m :: E' => if String.eqb (name m) n then Ok m else getattr E' n
  end.

(** [len(E)] *)
Definition len (E : t) : Z := Z.of_nat (length E).

Definition values (E : t) : list Z := map value E.

End IntEnum.

(** ** numpy *)

(** The registry of element types: the fixed-width numeric dtypes, by their
    canonical names. *)
Inductive Dtype : Type :=
| bool_ | uint8 | int8 | uint16 | int16 | uint32 | int32 | uint64 | int64
| float16 | float32 | float64 | complex64 | complex128.

Definition registry : list Dtype :=
  [bool_; uint8; int8; uint16; int16; uint32; int32; uint64; int64;
   float16; float32; float64; complex64; complex128].

Definition dtype_name (dt : Dtype) : string :=
  match dt with
  | bool_ => "bool" | uint8 => "uint8" | int8 => "int8"
  | uint16 => "uint16" | int16 => "int16"
  | uint32 => "uint32" | int32 => "int32"
  | uint64 => "uint64" | int64 => "int64"
  | float16 => "float16" | float32 => "float32" | float64 => "float64"
  | complex64 => "complex64" | complex128 => "complex128"
  end.

(** [dtype.itemsize], in bytes. *)
Definition itemsize (dt : Dtype) : Z :=
  match dt with
  | bool_ | uint8 | int8 => 1
  | uint16 | int16 | float16 => 2
  | uint32 | int32 | float32 => 4
  | uint64 | int64 | float64 | complex64 => 8
  | complex128 => 16
  end.

Definition dtype_of_name (s : string) : option Dtype :=
  find (fun dt => String.eqb (dtype_name dt) s) registry.

(** [numpy.dtype(x)] for the value found under ["dtype"]: a registry name
    gives its dtype, [None] gives the default [float64], anything else is
    not understood.  (Structured dtype descriptions are outside the
    registry and are reported as not understood.) *)
Definition np_dtype (x : json) : result Dtype :=
  match x with
  | JStr s =>
      match dtype_of_name s with
      | Some dt => Ok dt
      | None => Err TypeError
      end
  | JNull => Ok float64
  | _ => Err TypeError
  end.

(** An array over a byte buffer, C-contiguous: [data] is what [tobytes]
    returns. *)
Record ndarray : Type := {
  dtype : Dtype;
  shape : list Z;
  data : list byte
}.

Definition prod (dims : list Z) : Z := fold_right Z.mul 1 dims.

(** [A.size] *)
Definition size (A : ndarray) : Z := prod (shape A).

(** [A.tobytes()] *)
Definition tobytes (A : ndarray) : list byte := data A.

(** [numpy.frombuffer(buf, dtype=dt)]: a one-dimensional array over the whole
    buffer; the buffer size must be a multiple of the element size. *)
Definition frombuffer (buf : list byte) (dt : Dtype) : result ndarray :=
  let s := Z.of_nat (length buf) in
  if s mod itemsize dt =? 0
  then Ok {| dtype := dt; shape := [s / itemsize dt]; data := buf |}
  else Err ValueError.

(** The shape argument of [reshape]: a list of integers, or one integer. *)
Fixpoint ints_of_json (l : list json) : option (list Z) :=
  match l with
  | [] => Some []
  | JInt n :: l' =>
      match ints_of_json l' with
      | Some ns => Some (n :: ns)
      | None => None
      end
  | _ :: _ => None
  end.

Definition shape_of_json (x : json) : result (list Z) :=
  match x with
  | JInt n => Ok [n]
  | JList l =>
      match ints_of_json l with
      | Some ns => Ok ns
      | None => Err TypeError
      end
  | _ => Err TypeError
  end.

(** One pass over the requested dimensions: the product of the known ones
    and the position of the unknown (negative) one, if any.  [None] when
    more than one dimension is unknown. *)
Fixpoint scan_dims (dims : list Z) (i : nat) (s_known : Z) (i_unknown : option nat)
  : option (Z * option nat) :=
  match dims with
  | [] => Some (s_known, i_unknown)
  | d :: dims' =>
      if d <? 0
      then match i_unknown with
           | None => scan_dims dims' (S i) s_known (Some i)
           | Some _ => None
           end
      else scan_dims dims' (S i) (s_known * d) i_unknown
  end.

(** The new shape of an array of [s_original] elements: an unknown dimension
    is inferred; otherwise the sizes must agree. *)
Definition fix_unknown_dimension (dims : list Z) (s_original : Z) : result (list Z) :=
  match scan_dims dims 0%nat 1 None with
  | None => Err ValueError
  | Some (s_known, Some i) =>
      if (s_known =? 0) || negb (s_original mod s_known =? 0)
      then Err ValueError
      else Ok (<[i := s_original / s_known]> dims)
  | Some (s_known, None) =>
      if s_original =? s_known then Ok dims else Err ValueError
  end.

(** [A.reshape(newshape)]: same dtype, same buffer, new shape. *)
Definition reshape (A : ndarray) (newshape : list Z) : result ndarray :=
  match fix_unknown_dimension newshape (size A) with
  | Ok dims => Ok {| dtype := dtype A; shape := dims; data := data A |}
  | Err e => Err e
  end.

(** ** Computations

    A computation over a state [Σ] returns a value, raises an exception, or
    blocks for ever; each outcome carries the state reached. *)

Inductive outcome (Σ A : Type) : Type :=
| Return (a : A) (s : Σ)
| Raise (e : exn) (s : Σ)
| Blocked (s : Σ).
Arguments Return {Σ A} a s.
Arguments Raise {Σ A} e s.
Arguments Blocked {Σ A} s.

Definition M (Σ A : Type) : Type := Σ -> outcome Σ A.

Definition ret {Σ A} (a : A) : M Σ A := fun s => Return a s.

Definition raise {Σ A} (e : exn) : M Σ A := fun s => Raise e s.

Definition block {Σ A} : M Σ A := fun s => Blocked s.

Definition bind {Σ A B} (m : M Σ A) (k : A -> M Σ B) : M Σ B :=
  fun s =>
    match m s with
    | Return a s' => k a s'
    | Raise e s' => Raise e s'
    | Blocked s' => Blocked s'
    end.

Definition gets {Σ A} (f : Σ -> A) : M Σ A := fun s => Return (f s) s.

Definition modify {Σ} (f : Σ -> Σ) : M Σ unit := fun s => Return tt (f s).

Definition of_result {Σ A} (r : result A) : M Σ A :=
  match r with
  | Ok a => ret a
  | Err e => raise e
  end.

Declare Scope py_scope.
Delimit Scope py_scope with py.
Notation "x <- m ;; k" := (bind m (fun x => k))
  (at level 100, m at next level, right associativity) : py_scope.
Notation "m ;; k" := (bind m (fun _ => k))
  (at level 100, right associativity) : py_scope.

(** ** pyzmq *)

Module zmq.

(** A message on the wire: its bytes, and what [json.loads] makes of them
    ([None] when they are not JSON text). *)
Record msg : Type := { bytes : list byte; loads : option json }.

(** [tcp://host:port] *)
Record Endpoint : Type := { host : string; port : Z }.

(** A PAIR socket: the objects written with [send_json], oldest first, and
    the messages of the peer that are still to be received. *)
Record Socket : Type := {
  peer : option Endpoint;
  closed : bool;
  sent : list json;
  pending : list msg
}.

End zmq.

(** The world outside the session: whether [import zmq] succeeded, what the
    peer at each address sends, and the sockets created so far (a socket
    reference is an index into this table). *)
Record World : Type := {
  zmq_imported : bool;
  network : zmq.Endpoint -> list zmq.msg;
  sockets : list zmq.Socket
}.

Definition set_sockets (w : World) (ss : list zmq.Socket) : World :=
  {| zmq_imported := zmq_imported w; network := network w; sockets := ss |}.

Module Socket.
Import zmq.
Local Open Scope py_scope.

Definition set_sent (s : Socket) (objs : list json) : Socket :=
  {| peer := peer s; closed := closed s; sent := objs; pending := pending s |}.

Definition set_pending (s : Socket) (ms : list msg) : Socket :=
  {| peer := peer s; closed := closed s; sent := sent s; pending := ms |}.

(** The socket behind a reference; operations on a closed socket fail. *)
Definition live (r : nat) : M World Socket :=
  fun w =>
    match sockets w !! r with
    | Some s => if closed s then Raise ZMQError w else Return s w
    | None => Raise ZMQError w
    end.

Definition store (r : nat) (s : Socket) : M World unit :=
  modify (fun w => set_sockets w (<[r := s]> (sockets w))).

(** [context.socket(zmq.PAIR)] *)
Definition socket : M World nat :=
  fun w =>
    Return (length (sockets w))
      (set_sockets w
         (sockets w ++ [{| peer := None; closed := false; sent := []; pending := [] |}])).

(** [socket.connect(addr)]: never fails; the messages of the peer at that
    address become receivable. *)
Definition connect (r : nat) (addr : Endpoint) : M World unit :=
  s <- live r ;;
  msgs <- gets (fun w => network w addr) ;;
  store r {| peer := Some addr; closed := closed s; sent := sent s;
             pending := msgs |}.

(** [socket.send_json(obj)] *)
Definition send_json (r : nat) (obj : json) : M World unit :=
  s <- live r ;;
  store r (set_sent s (sent s ++ [obj])).

(** The next message of the peer; blocks while there is none. *)
Definition next (r : nat) : M World msg :=
  s <- live r ;;
  match pending s with
  | [] => block
  | m :: rest => (store r (set_pending s rest) ;; ret m)
  end.

(** [socket.recv_json()] *)
Definition recv_json (r : nat) : M World json :=
  m <- next r ;;
  match loads m with
  | Some j => ret j
  | None => raise JSONDecodeError
  end.

(** [socket.recv(copy=True, track=False)] *)
Definition recv (r : nat) : M World (list byte) :=
  m <- next r ;;
  ret (bytes m).

End Socket.

(** ** remotebot.py *)

Definition WINDOW_WIDTH : Z := 800.
Definition WINDOW_HEIGHT : Z := 600.
Definition SERVER_PORT : Z := 7777.

Local Open Scope py_scope.

(** Receive a numpy array over zmq. *)
Definition recv_array (socket : nat) : M World ndarray :=
  md <- Socket.recv_json socket ;;
  msg <- Socket.recv socket ;;
  let buf := msg in
  dt <- of_result (getitem md "dtype") ;;
  dt <- of_result (np_dtype dt) ;;
  A <- of_result (frombuffer buf dt) ;;
  newshape <- of_result (getitem md "shape") ;;
  newshape <- of_result (shape_of_json newshape) ;;
  A <- of_result (reshape A newshape) ;;
  ret A.

(** gymnasium's spaces, as far as the constructors use them. *)
Module spaces.

Inductive Space : Type :=
| Discrete (n : Z)
| Box (low high : Z) (shape : list Z) (dtype : Dtype).

(** [x in Discrete(n)] for an integer [x]. *)
Definition contains (sp : Space) (x : Z) : bool :=
  match sp with
  | Discrete n => (0 <=? x) && (x <? n)
  | Box _ _ _ _ => false
  end.

End spaces.

Module pyglet.

Record Label : Type := { font_name : string; font_size : Z; x : Z; y : Z }.

Record Window : Type := { width : Z; height : Z; closed : bool }.

(** [window.close()] *)
Definition close (w : Window) : Window :=
  {| width := width w; height := height w; closed := true |}.

End pyglet.

(** An environment that is an interface to remotely control an actual real
    robot.  [render], which draws the cached frame and creates the window
    that [close] closes, is left out: no statement below is about it. *)
Module RemoteBot.
Import spaces.

(** The attributes of a session.  [step_count] and [img] do not exist
    until [reset] and [_recv_frame] assign them: [None] is "not set".
    [max_episode_steps] is [math.inf], written [None]. *)
Record t : Type := {
  actions : IntEnum.t;
  action_space : Space;
  observation_space : Space;
  obs_width : Z;
  obs_height : Z;
  reward_range : Z * Z;
  max_episode_steps : option Z;
  window : option pyglet.Window;
  render_mode : option string;
  latest_img : option ndarray;
  textLabel : pyglet.Label;
  socket : nat;
  step_count : option Z;
  img : option ndarray
}.

Definition set_window (o : t) (v : option pyglet.Window) : t :=
  {| actions := actions o; action_space := action_space o;
     observation_space := observation_space o;
     obs_width := obs_width o; obs_height := obs_height o;
     reward_range := reward_range o; max_episode_steps := max_episode_steps o;
     window := v; render_mode := render_mode o; latest_img := latest_img o;
     textLabel := textLabel o; socket := socket o;
     step_count := step_count o; img := img o |}.

Definition set_step_count (o : t) (v : option Z) : t :=
  {| actions := actions o; action_space := action_space o;
     observation_space := observation_space o;
     obs_width := obs_width o; obs_height := obs_height o;
     reward_range := reward_range o; max_episode_steps := max_episode_steps o;
     window := window o; render_mode := render_mode o; latest_img := latest_img o;
     textLabel := textLabel o; socket := socket o;
     step_count := v; img := img o |}.

Definition set_img (o : t) (v : option ndarray) : t :=
  {| actions := actions o; action_space := action_space o;
     observation_space := observation_space o;
     obs_width := obs_width o; obs_height := obs_height o;
     reward_range := reward_range o; max_episode_steps := max_episode_steps o;
     window := window o; render_mode := render_mode o; latest_img := latest_img o;
     textLabel := textLabel o; socket := socket o;
     step_count := step_count o; img := v |}.

(** The state a method runs in: the object [self] and the world. *)
Record State : Type := { self : t; world : World }.

Definition on_self (f : t -> t) : M State unit :=
  modify (fun st => {| self := f (self st); world := world st |}).

(** Read an attribute that may not be set yet. *)
Definition attr {A} (f : t -> option A) : M State A :=
  v <- gets (fun st => f (self st)) ;;
  match v with
  | Some a => ret a
  | None => raise AttributeError
  end.

(** Run a computation on the world inside a method. *)
Definition lift {A} (m : M World A) : M State A :=
  fun st =>
    match m (world st) with
    | Return a w => Return a {| self := self st; world := w |}
    | Raise e w => Raise e {| self := self st; world := w |}
    | Blocked w => Blocked {| self := self st; world := w |}
    end.

(** Run the body of a constructor on a fresh object: the caller gets the
    object when the body returns, and nothing when it does not. *)
Definition construct (o : t) (body : M State unit) : M World t :=
  fun w =>
    match body {| self := o; world := w |} with
    | Return _ st => Return (self st) (world st)
    | Raise e st => Raise e (world st)
    | Blocked st => Blocked (world st)
    end.

Section Methods.

(** [Actions = MiniWorldEnv.Actions]: the enumeration is declared in
    [gym_miniworld/miniworld.py]. *)
Variable Actions : IntEnum.t.

(** [if self.window:] holds for every window object, closed or not. *)
Definition close : M State unit :=
  w <- gets (fun st => window (self st)) ;;
  match w with
  | Some win => on_self (fun o => set_window o (Some (pyglet.close win)))
  | None => ret tt
  end.

Definition _recv_frame : M State unit :=
  socket <- gets (fun st => socket (self st)) ;;
  img <- lift (recv_array socket) ;;
  on_self (fun o => set_img o (Some img)).

Definition reset (seed : option Z) (options : option dict)
  : M State (ndarray * dict) :=
  on_self (fun o => set_step_count o (Some 0)) ;;
  o <- gets self ;;
  lift (Socket.send_json (socket o)
          (JObj [("command", JStr "reset");
                 ("obs_width", JInt (obs_width o));
                 ("obs_height", JInt (obs_height o))])) ;;
  _recv_frame ;;
  img <- attr img ;;
  ret (img, []).

Definition step (action : Z)
  : M State (ndarray * Z * bool * bool * dict) :=
  o <- gets self ;;
  a <- of_result (IntEnum.call Actions action) ;;
  lift (Socket.send_json (socket o)
          (JObj [("command", JStr "action");
                 ("action", JStr (IntEnum.name a))])) ;;
  _recv_frame ;;
  n <- attr step_count ;;
  on_self (fun o => set_step_count o (Some (n + 1))) ;;
  let reward := 0 in
  let termination := false in
  let truncation := false in
  img <- attr img ;;
  ret (img, reward, termination, truncation, []).

(** The defaults are [serverAddr="minibot1.local"],
    [serverPort=SERVER_PORT], [obs_width=80], [obs_height=60],
    [render_mode=None]. *)
Definition __init__ (serverAddr : string) (serverPort : Z)
    (obs_width obs_height : Z) (render_mode : option string) : M World t :=
  imported <- gets zmq_imported ;;
  if negb imported then raise AssertionError else
  let addr := {| zmq.host := serverAddr; zmq.port := serverPort |} in
  socket <- Socket.socket ;;
  Socket.connect socket addr ;;
  construct
    {| actions := Actions;
       action_space := Discrete (IntEnum.len Actions);
       observation_space := Box 0 255 [obs_height; obs_width; 3] uint8;
       obs_width := obs_width;
       obs_height := obs_height;
       reward_range := (0, 1);
       max_episode_steps := None;
       window := None;
       render_mode := render_mode;
       latest_img := None;
       textLabel := {| pyglet.font_name := "Arial"; pyglet.font_size := 14;
                       pyglet.x := 5; pyglet.y := WINDOW_HEIGHT - 19 |};
       socket := socket;
       step_count := None;
       img := None |}
    (reset None None ;; ret tt).

End Methods.

End RemoteBot.

(** ** The simulated environments *)

(** The base class lives in [gym_miniworld/miniworld.py]; the constructors
    below only rely on the attributes it leaves on the object. *)
Module MiniWorldEnv.

(** [params]: the default simulation parameters, or the module's own
    [sim_params] (a copy of the defaults with eight entries changed). *)
Inductive Params : Type := DEFAULT_PARAMS | sim_params.

Record t : Type := {
  actions : IntEnum.t;
  action_space : spaces.Space;
  max_episode_steps : Z;
  params : Params;
  domain_rand : bool
}.

Definition set_action_space (o : t) (sp : spaces.Space) : t :=
  {| actions := actions o; action_space := sp;
     max_episode_steps := max_episode_steps o; params := params o;
     domain_rand := domain_rand o |}.

(** The type of [MiniWorldEnv.__init__], called with
    [max_episode_steps], [params], [domain_rand] and the remaining
    keyword arguments. *)
Definition init : Type := Z -> Params -> bool -> dict -> result t.

End MiniWorldEnv.

(** Environment in which the goal is to go to a red box at the end of a
    hallway. *)
Module Hallway.
Import MiniWorldEnv.

Record t : Type := { length : Z; base : MiniWorldEnv.t }.

Definition __init__ (super__init__ : MiniWorldEnv.init) (length : Z) (kwargs : dict)
  : result t :=
  if negb (length >=? 2) then Err AssertionError else
  match super__init__ 250 DEFAULT_PARAMS false kwargs with
  | Err e => Err e
  | Ok self =>
      (* Allow only movement actions (left/right/forward) *)
      match IntEnum.getattr (actions self) "move_forward" with
      | Err e => Err e
      | Ok move_forward =>
          Ok {| length := length;
                base := set_action_space self
                          (spaces.Discrete (IntEnum.value move_forward + 1)) |}
      end
  end.

End Hallway.

(** Two small rooms connected to one large room. *)
Module ThreeRooms.
Import MiniWorldEnv.

Definition __init__ (super__init__ : MiniWorldEnv.init) (kwargs : dict)
  : result MiniWorldEnv.t :=
  match super__init__ 400 DEFAULT_PARAMS false kwargs with
  | Err e => Err e
  | Ok self =>
      (* Allow only the movement actions *)
      match IntEnum.getattr (actions self) "move_forward" with
      | Err e => Err e
      | Ok move_forward =>
          Ok (set_action_space self
                (spaces.Discrete (IntEnum.value move_forward + 1)))
      end
  end.

End ThreeRooms.

(** Environment designed for sim-to-real transfer. *)
Module SimToRealGoTo.
Import MiniWorldEnv.

Definition __init__ (super__init__ : MiniWorldEnv.init) (kwargs : dict)
  : result MiniWorldEnv.t :=
  match super__init__ 100 sim_params true kwargs with
  | Err e => Err e
  | Ok self =>
      (* Allow only the movement actions *)
      match IntEnum.getattr (actions self) "move_forward" with
      | Err e => Err e
      | Ok move_forward =>
          Ok (set_action_space self
                (spaces.Discrete (IntEnum.value move_forward + 1)))
      end
  end.

End SimToRealGoTo.

(** ** Callers *)

(** A caller of the session: a sequence of [reset] and [step] calls, each
    made after the previous one has returned. *)
Inductive call : Type :=
| Reset
| Step (action : Z).

Definition perform (Actions : IntEnum.t) (c : call) : M RemoteBot.State unit :=
  match c with
  | Reset => (RemoteBot.reset None None ;; ret tt)
  | Step action => (RemoteBot.step Actions action ;; ret tt)
  end.

Fixpoint perform_all (Actions : IntEnum.t) (cs : list call) : M RemoteBot.State unit :=
  match cs with
  | [] => ret tt
  | c :: cs' => (perform Actions c ;; perform_all Actions cs')
  end.

(** ** Replies *)

(** The header of a reply, as [recv_json] returns it. *)
Definition header (dt : string) (shape : list Z) : json :=
  JObj [("dtype", JStr dt); ("shape", JList (map JInt shape))].

(** What lines 49 to 51 of [recv_array] make of a header and a buffer. *)
Definition decode (md : json) (buf : list byte) : result ndarray :=
  match getitem md "dtype" with
  | Err e => Err e
  | Ok dt =>
      match np_dtype dt with
      | Err e => Err e
      | Ok dt =>
          match frombuffer buf dt with
          | Err e => Err e
          | Ok A =>
              match getitem md "shape" with
              | Err e => Err e
              | Ok newshape =>
                  match shape_of_json newshape with
                  | Err e => Err e
                  | Ok newshape => reshape A newshape
                  end
              end
          end
      end
  end.

(** The reply at the head of the queue of a live socket: the header, the
    payload, and the world once both messages have been taken. *)
Definition incoming (w : World) (r : nat) : option (json * list byte * World) :=
  match sockets w !! r with
  | Some s =>
      if zmq.closed s then None else
      match zmq.pending s with
      | m1 :: m2 :: rest =>
          match zmq.loads m1 with
          | Some md =>
              Some (md, zmq.bytes m2,
                    set_sockets w (<[r := Socket.set_pending s rest]> (sockets w)))
          | None => None
          end
      | _ => None
      end
  | None => None
  end.


(** ** Vocabulary of the statements *)

(** The two commands of the bridge. *)
Definition reset_command (obs_width obs_height : Z) : json :=
  JObj [("command", JStr "reset");
        ("obs_width", JInt obs_width);
        ("obs_height", JInt obs_height)].

Definition action_command (name : string) : json :=
  JObj [("command", JStr "action"); ("action", JStr name)].

(** The socket after one exchange: the command is appended to what was
    sent, and the two messages of the reply are gone. *)
Definition exchanged (s : zmq.Socket) (cmd : json) (rest : list zmq.msg) : zmq.Socket :=
  Socket.set_pending (Socket.set_sent s (zmq.sent s ++ [cmd])%list) rest.

(** The object on which the constructor runs [reset], and the socket it has
    just connected. *)
Definition fresh_bot (Actions : IntEnum.t) (obs_width obs_height : Z)
    (render_mode : option string) (socket : nat) : RemoteBot.t :=
  {| RemoteBot.actions := Actions;
     RemoteBot.action_space := spaces.Discrete (IntEnum.len Actions);
     RemoteBot.observation_space := spaces.Box 0 255 [obs_height; obs_width; 3] uint8;
     RemoteBot.obs_width := obs_width;
     RemoteBot.obs_height := obs_height;
     RemoteBot.reward_range := (0, 1);
     RemoteBot.max_episode_steps := None;
     RemoteBot.window := None;
     RemoteBot.render_mode := render_mode;
     RemoteBot.latest_img := None;
     RemoteBot.textLabel :=
       {| pyglet.font_name := "Arial"; pyglet.font_size := 14;
          pyglet.x := 5; pyglet.y := WINDOW_HEIGHT - 19 |};
     RemoteBot.socket := socket;
     RemoteBot.step_count := None;
     RemoteBot.img := None |}.

Definition connected (w : World) (addr : zmq.Endpoint) : zmq.Socket :=
  {| zmq.peer := Some addr; zmq.closed := false; zmq.sent := [];
     zmq.pending := network w addr |}.

Definition member (n : string) (v : Z) : IntEnum.member :=
  {| IntEnum.name := n; IntEnum.value := v |}.

(** The three movement actions, numbered as in the tables of the
    environments' docstrings. *)
Definition movement : IntEnum.t :=
  [member "turn_left" 0; member "turn_right" 1; member "move_forward" 2].

(** The action space holds exactly the values of the first three members
    of the enumeration, and these are the movement actions. *)
Definition only_movement (env : MiniWorldEnv.t) : Prop :=
  MiniWorldEnv.action_space env = spaces.Discrete 3 /\
  firstn 3 (MiniWorldEnv.actions env) = movement /\
  forall x : Z,
    spaces.contains (MiniWorldEnv.action_space env) x = true <->
    In x (IntEnum.values (firstn 3 (MiniWorldEnv.actions env))).

(** ** Sample instances *)

(** An enumeration that goes on after the movement actions. *)
Definition sample_Actions : IntEnum.t :=
  (movement ++
   [member "move_back" 3; member "pickup" 4; member "drop" 5;
    member "toggle" 6; member "done" 7])%list.

(** The two messages of a reply (the text of the header message is
    immaterial and left empty). *)
Definition reply (md : json) (payload : list byte) : list zmq.msg :=
  [{| zmq.bytes := []; zmq.loads := Some md |};
   {| zmq.bytes := payload; zmq.loads := None |}].

(** A world with one open socket on which [ms] are still to be received. *)
Definition one_socket (ms : list zmq.msg) : World :=
  {| zmq_imported := true;
     network := fun _ => [];
     sockets := [{| zmq.peer := None; zmq.closed := false; zmq.sent := [];
                    zmq.pending := ms |}] |}.

(** A robot that has three tiny frames to send. *)
Definition tiny (b : byte) : ndarray :=
  {| dtype := uint8; shape := [2; 2; 3]; data := repeat b 12 |}.

Definition robot (ep : zmq.Endpoint) : list zmq.msg :=
  (reply (header "uint8" [2; 2; 3]) (repeat x00 12) ++
   reply (header "uint8" [2; 2; 3]) (repeat x01 12) ++
   reply (header "uint8" [2; 2; 3]) (repeat x02 12))%list.

Definition lab : World :=
  {| zmq_imported := true; network := robot; sockets := [] |}.

(** The session [RemoteBot()] in the lab, and the lab after its
    construction. *)
Definition sample_bot : RemoteBot.t :=
  {| RemoteBot.actions := sample_Actions;
     RemoteBot.action_space := spaces.Discrete 8;
     RemoteBot.observation_space := spaces.Box 0 255 [60; 80; 3] uint8;
     RemoteBot.obs_width := 80;
     RemoteBot.obs_height := 60;
     RemoteBot.reward_range := (0, 1);
     RemoteBot.max_episode_steps := None;
     RemoteBot.window := None;
     RemoteBot.render_mode := None;
     RemoteBot.latest_img := None;
     RemoteBot.textLabel :=
       {| pyglet.font_name := "Arial"; pyglet.font_size := 14;
          pyglet.x := 5; pyglet.y := 581 |};
     RemoteBot.socket := 0%nat;
     RemoteBot.step_count := Some 0;
     RemoteBot.img := Some (tiny x00) |}.

Definition sample_socket (sent : list json) (pending : list zmq.msg) : zmq.Socket :=
  {| zmq.peer := Some {| zmq.host := "minibot1.local"; zmq.port := 7777 |};
     zmq.closed := false; zmq.sent := sent; zmq.pending := pending |}.

Definition sample_world (sent : list json) (pending : list zmq.msg) : World :=
  {| zmq_imported := true; network := robot;
     sockets := [sample_socket sent pending] |}.

Definition sample_session : RemoteBot.State :=
  {| RemoteBot.self := sample_bot;
     RemoteBot.world :=
       sample_world [reset_command 80 60]
         (reply (header "uint8" [2; 2; 3]) (repeat x01 12) ++
          reply (header "uint8" [2; 2; 3]) (repeat x02 12))%list |}.

(** A session whose next reply announces a 60 x 80 RGB frame and carries
    [n] bytes. *)
Definition camera_session (n : Z) : RemoteBot.State :=
  {| RemoteBot.self := sample_bot;
     RemoteBot.world :=
       sample_world [] (reply (header "uint8" [60; 80; 3]) (repeat x00 (Z.to_nat n))) |}.

(** A session that has a display window. *)
Definition windowed_session : RemoteBot.State :=
  {| RemoteBot.self :=
       RemoteBot.set_window sample_bot
         (Some {| pyglet.width := WINDOW_WIDTH; pyglet.height := WINDOW_HEIGHT;
                  pyglet.closed := false |});
     RemoteBot.world := RemoteBot.world sample_session |}.

(** A base constructor that leaves the sample enumeration, and the full
    action space, on the object. *)
Definition sample_super : MiniWorldEnv.init :=
  fun max_episode_steps params domain_rand kwargs =>
    Ok {| MiniWorldEnv.actions := sample_Actions;
          MiniWorldEnv.action_space := spaces.Discrete (IntEnum.len sample_Actions);
          MiniWorldEnv.max_episode_steps := max_episode_steps;
          MiniWorldEnv.params := params;
          MiniWorldEnv.domain_rand := domain_rand |}.

(** ** Further vocabulary *)

(** The state an outcome carries. *)
Definition state_of {Σ A} (o : outcome Σ A) : Σ :=
  match o with
  | Return _ s => s
  | Raise _ s => s
  | Blocked s => s
  end.

(** An array whose buffer has exactly the bytes its shape and its dtype
    call for. *)
Definition wellformed (A : ndarray) : Prop :=
  Forall (fun d => 0 <= d) (shape A) /\
  Z.of_nat (length (data A)) = size A * itemsize (dtype A).

(** The number of negative entries of a shape. *)
Fixpoint negatives (dims : list Z) : nat :=
  match dims with
  | [] => 0%nat
  | d :: dims' => ((if (d <? 0)%Z then 1 else 0) + negatives dims')%nat
  end.

(** [w'] differs from [w] at most in the socket behind [r]. *)
Definition only_socket (r : nat) (w w' : World) : Prop :=
  zmq_imported w' = zmq_imported w /\
  network w' = network w /\
  length (sockets w') = length (sockets w) /\
  forall r', r' <> r -> sockets w' !! r' = sockets w !! r'.

(** The socket [s'] is [s] with some messages taken from the head of its
    queue, at most [k] of them: nothing was written, nothing else changed. *)
Definition took_at_most (k : nat) (s s' : zmq.Socket) : Prop :=
  exists n, (n <= k)%nat /\ s' = Socket.set_pending s (drop n (zmq.pending s)).

(** The attributes of a session that are assigned once, in the constructor. *)
Definition same_config (o o' : RemoteBot.t) : Prop :=
  RemoteBot.actions o' = RemoteBot.actions o /\
  RemoteBot.action_space o' = RemoteBot.action_space o /\
  RemoteBot.observation_space o' = RemoteBot.observation_space o /\
  RemoteBot.obs_width o' = RemoteBot.obs_width o /\
  RemoteBot.obs_height o' = RemoteBot.obs_height o /\
  RemoteBot.reward_range o' = RemoteBot.reward_range o /\
  RemoteBot.max_episode_steps o' = RemoteBot.max_episode_steps o /\
  RemoteBot.render_mode o' = RemoteBot.render_mode o /\
  RemoteBot.latest_img o' = RemoteBot.latest_img o /\
  RemoteBot.textLabel o' = RemoteBot.textLabel o /\
  RemoteBot.socket o' = RemoteBot.socket o.

(** ** [RemoteBot.render]

    The method is embedded in two parts: the choice it makes on
    [render_mode] before it touches the window (lines 172 to 181), and the
    image it prepares for the window (lines 202 to 212).  What pyglet and
    OpenGL then do with the window is not modelled. *)

(** How [render] leaves lines 172 to 181: it has returned [None] after the
    warning, it has returned a frame, or it goes on to draw. *)
Inductive rendering : Type :=
| Warned
| Frame (A : ndarray)
| Drawing.

(** [spec] is [self.spec]: the class leaves it alone; it is [None] unless
    the environment was made through the registry, which stores the
    registration there.  The warning text is formatted with [self.spec.id]
    before the warning is issued. *)
Definition render_entry (spec : option string) : M RemoteBot.State rendering :=
  (mode <- gets (fun st => RemoteBot.render_mode (RemoteBot.self st)) ;;
   match mode with
   | None =>
       match spec with
       | Some _ => ret Warned
       | None => raise AttributeError
       end
   | Some mode =>
       if String.eqb mode "rgb_array"
       then (img <- RemoteBot.attr RemoteBot.img ;; ret (Frame img))
       else ret Drawing
   end)%py.

(** What numpy raises on an array with too few dimensions. *)
Inductive shape_error : Type :=
| AxisError
| IndexError.

(** The first [k] blocks of [n] bytes of a buffer. *)
Fixpoint rows (k n : nat) (buf : list byte) : list (list byte) :=
  match k with
  | O => []
  | S k' => take n buf :: rows k' n (drop n buf)
  end.

(** [np.ascontiguousarray(np.flip(A, axis=0))]: the blocks along the first
    axis in reverse order; an array without dimensions has no axis 0. *)
Definition flip0 (A : ndarray) : shape_error + ndarray :=
  match shape A with
  | [] => inl AxisError
  | d0 :: rest =>
      inr {| dtype := dtype A;
             shape := shape A;
             data :=
               concat (rev (rows (Z.to_nat d0)
                              (Z.to_nat (prod rest * itemsize (dtype A))) (data A))) |}
  end.

Module image.

Record ImageData : Type := {
  width : Z;
  height : Z;
  fmt : string;
  pixels : list byte;
  pitch : Z
}.

End image.

(** Lines 202 to 212 of [render]: the image handed to the window. *)
Definition render_image (img : ndarray) : shape_error + image.ImageData :=
  match flip0 img with
  | inl e => inl e
  | inr img =>
      match shape img with
      | height :: width :: _ =>
          inr {| image.width := width;
                 image.height := height;
                 image.fmt := "RGB";
                 image.pixels := tobytes img;
                 image.pitch := width * 3 |}
      | _ => inl IndexError
      end
  end.

(** ** The [step] methods of the simulated environments

    [super().step], [self.near(self.box)] and [self._reward()] come from
    [gym_miniworld/miniworld.py]: the result of the first (a tuple, or an
    exception) and the values of the other two are arguments.  Rewards are
    numbers of a type [R] with an addition. *)
Section EnvironmentSteps.

Variables Obs R Info : Type.
Variable add : R -> R -> R.

Definition step_result : Type := Obs * R * bool * bool * Info.

Definition Hallway_step (super_step : result step_result) (near : bool) (_reward : R)
  : result step_result :=
  match super_step with
  | Err e => Err e
  | Ok (obs, reward, termination, truncation, info) =>
      if near
      then Ok (obs, add reward _reward, true, truncation, info)
      else Ok (obs, reward, termination, truncation, info)
  end.

Definition ThreeRooms_step (super_step : result step_result) : result step_result :=
  match super_step with
  | Err e => Err e
  | Ok (obs, reward, termination, truncation, info) =>
      Ok (obs, reward, termination, truncation, info)
  end.

Definition SimToRealGoTo_step (super_step : result step_result) (near : bool) (_reward : R)
  : result step_result :=
  match super_step with
  | Err e => Err e
  | Ok (obs, reward, termination, truncation, info) =>
      if near
      then Ok (obs, add reward _reward, true, truncation, info)
      else Ok (obs, reward, termination, truncation, info)
  end.

End EnvironmentSteps.

(** [env] is the object [self] that the base constructor left, with the
    action space replaced by Discrete(move_forward + 1): the integers from 0
    to the value of move_forward. *)
Definition built_on (self env : MiniWorldEnv.t) : Prop :=
  exists move_forward,
    IntEnum.getattr (MiniWorldEnv.actions self) "move_forward" = Ok move_forward /\
    env = MiniWorldEnv.set_action_space self
            (spaces.Discrete (IntEnum.value move_forward + 1)) /\
    forall x : Z,
      spaces.contains (MiniWorldEnv.action_space env) x = true <->
      0 <= x <= IntEnum.value move_forward.

(** * Properties *)

(** ** The codec *)

Section Codec.

Lemma itemsize_pos (dt : Dtype) : 0 < itemsize dt.
Proof. destruct dt; reflexivity. Qed.

Lemma np_dtype_name (dt : Dtype) : np_dtype (JStr (dtype_name dt)) = Ok dt.
Proof. destruct dt; reflexivity. Qed.

Lemma ints_of_json_map (ns : list Z) : ints_of_json (map JInt ns) = Some ns.
Proof.
  induction ns as [|n ns IH]; simpl; [reflexivity|].
  rewrite IH. reflexivity.
Qed.

Lemma prod_nonneg (dims : list Z) :
  Forall (fun d => 0 <= d) dims -> 0 <= prod dims.
Proof.
  induction 1 as [|d dims Hd _ IH]; simpl; [lia|].
  apply Z.mul_nonneg_nonneg; assumption.
Qed.

(** Without a negative entry the scan finds no unknown dimension and
    multiplies everything. *)
Lemma scan_dims_nonneg (dims : list Z) :
  Forall (fun d => 0 <= d) dims ->
  forall i s_known u,
    scan_dims dims i s_known u = Some (s_known * prod dims, u).
Proof.
  induction 1 as [|d dims Hd _ IH]; intros i s_known u; simpl.
  - f_equal. f_equal. lia.
  - destruct (d <? 0) eqn:E; [apply Z.ltb_lt in E; lia|].
    rewrite IH. f_equal. f_equal. lia.
Qed.

Lemma fix_unknown_dimension_nonneg (dims : list Z) (n : Z) :
  Forall (fun d => 0 <= d) dims ->
  fix_unknown_dimension dims n =
    if n =? prod dims then Ok dims else Err ValueError.
Proof.
  intros H. unfold fix_unknown_dimension.
  rewrite (scan_dims_nonneg dims H).
  replace (1 * prod dims) with (prod dims) by lia. reflexivity.
Qed.

Lemma getitem_header_dtype (name : string) (dims : list Z) :
  getitem (header name dims) "dtype" = Ok (JStr name).
Proof. reflexivity. Qed.

Lemma getitem_header_shape (name : string) (dims : list Z) :
  getitem (header name dims) "shape" = Ok (JList (map JInt dims)).
Proof. reflexivity. Qed.

(** Decoding under a header with a registry dtype and a shape without
    negative entries: the length test is all there is. *)
Lemma decode_header (dt : Dtype) (dims : list Z) (buf : list byte) :
  Forall (fun d => 0 <= d) dims ->
  decode (header (dtype_name dt) dims) buf =
    if Z.of_nat (length buf) =? prod dims * itemsize dt
    then Ok {| dtype := dt; shape := dims; data := buf |}
    else Err ValueError.
Proof.
  intros H. unfold decode.
  rewrite getitem_header_dtype, np_dtype_name, getitem_header_shape.
  unfold frombuffer.
  pose proof (itemsize_pos dt) as Hpos.
  set (n := Z.of_nat (length buf)).
  destruct (n mod itemsize dt =? 0) eqn:Hmod.
  - apply Z.eqb_eq in Hmod.
    unfold shape_of_json. rewrite ints_of_json_map.
    unfold reshape, size. simpl shape. simpl dtype. simpl data.
    rewrite (fix_unknown_dimension_nonneg dims _ H).
    assert (Hn : n = n / itemsize dt * itemsize dt).
    { rewrite (Z.div_mod n (itemsize dt)) at 1 by lia. lia. }
    unfold prod at 1. simpl fold_right.
    destruct (n / itemsize dt * 1 =? prod dims) eqn:E1;
      destruct (n =? prod dims * itemsize dt) eqn:E2;
      try reflexivity.
    + apply Z.eqb_eq in E1. apply Z.eqb_neq in E2. nia.
    + apply Z.eqb_neq in E1. apply Z.eqb_eq in E2. nia.
  - apply Z.eqb_neq in Hmod.
    destruct (n =? prod dims * itemsize dt) eqn:E2; [|reflexivity].
    apply Z.eqb_eq in E2. rewrite E2 in Hmod.
    rewrite Z.mod_mul in Hmod by lia. congruence.
Qed.

End Codec.

(** ** Computations and sockets *)

Section Outcomes.
Context {Σ A B : Type}.

Lemma bind_Return_inv (m : M Σ A) (k : A -> M Σ B) s b s2 :
  bind m k s = Return b s2 ->
  exists a s1, m s = Return a s1 /\ k a s1 = Return b s2.
Proof.
  unfold bind. destruct (m s) as [a s1|e s1|s1]; intros H; try discriminate.
  exists a, s1. split; [reflexivity|assumption].
Qed.

Lemma bind_Return (m : M Σ A) (k : A -> M Σ B) s a s1 :
  m s = Return a s1 -> bind m k s = k a s1.
Proof. unfold bind. intros ->. reflexivity. Qed.

Lemma of_result_Return_inv (r : result A) (s s' : Σ) a :
  of_result r s = Return a s' -> r = Ok a /\ s' = s.
Proof.
  destruct r as [a0|e]; unfold of_result, ret, raise; intros H;
    inversion H; subst; split; reflexivity.
Qed.

End Outcomes.

Ltac bind_inv H :=
  let a := fresh "a" in
  let s := fresh "s" in
  let H1 := fresh H in
  apply bind_Return_inv in H; destruct H as (a & s & H1 & H).

Section Sockets.
Import zmq.

Lemma set_sockets_twice w l1 l2 :
  set_sockets (set_sockets w l1) l2 = set_sockets w l2.
Proof. reflexivity. Qed.

Lemma live_Return w r s :
  sockets w !! r = Some s -> closed s = false ->
  Socket.live r w = Return s w.
Proof. unfold Socket.live. intros -> ->. reflexivity. Qed.

Lemma live_Return_inv w r s w' :
  Socket.live r w = Return s w' ->
  w' = w /\ sockets w !! r = Some s /\ closed s = false.
Proof.
  unfold Socket.live. destruct (sockets w !! r) as [s0|]; [|discriminate].
  destruct (closed s0) eqn:E; [discriminate|].
  intros H. inversion H; subst. auto.
Qed.

Lemma lookup_stored w r s s' :
  sockets w !! r = Some s ->
  sockets (set_sockets w (<[r := s']> (sockets w))) !! r = Some s'.
Proof.
  intros H. simpl. apply list_lookup_insert_eq.
  apply lookup_lt_Some in H. exact H.
Qed.

Lemma stored_twice w r s1 s2 :
  set_sockets (set_sockets w (<[r := s1]> (sockets w)))
    (<[r := s2]> (sockets (set_sockets w (<[r := s1]> (sockets w))))) =
  set_sockets w (<[r := s2]> (sockets w)).
Proof. simpl. rewrite list_insert_insert_eq. reflexivity. Qed.

Lemma send_json_Return w r s obj :
  sockets w !! r = Some s -> closed s = false ->
  Socket.send_json r obj w =
    Return tt (set_sockets w (<[r := Socket.set_sent s (sent s ++ [obj])]> (sockets w))).
Proof.
  intros Hs Hc. unfold Socket.send_json.
  rewrite (bind_Return _ _ _ _ _ (live_Return _ _ _ Hs Hc)). reflexivity.
Qed.

Lemma send_json_Return_inv w r obj u w' :
  Socket.send_json r obj w = Return u w' ->
  exists s, sockets w !! r = Some s /\ closed s = false /\
    w' = set_sockets w (<[r := Socket.set_sent s (sent s ++ [obj])]> (sockets w)).
Proof.
  unfold Socket.send_json. intros H. bind_inv H.
  apply live_Return_inv in H0 as (-> & Hs & Hc).
  exists a. repeat split; try assumption.
  unfold Socket.store, modify in H. inversion H. reflexivity.
Qed.

Lemma next_Return w r s m rest :
  sockets w !! r = Some s -> closed s = false -> pending s = m :: rest ->
  Socket.next r w =
    Return m (set_sockets w (<[r := Socket.set_pending s rest]> (sockets w))).
Proof.
  intros Hs Hc Hp. unfold Socket.next.
  rewrite (bind_Return _ _ _ _ _ (live_Return _ _ _ Hs Hc)). rewrite Hp.
  reflexivity.
Qed.

Lemma next_Blocked w r s :
  sockets w !! r = Some s -> closed s = false -> pending s = [] ->
  Socket.next r w = Blocked w.
Proof.
  intros Hs Hc Hp. unfold Socket.next.
  rewrite (bind_Return _ _ _ _ _ (live_Return _ _ _ Hs Hc)). rewrite Hp.
  reflexivity.
Qed.

Lemma next_Return_inv w r m w' :
  Socket.next r w = Return m w' ->
  exists s rest, sockets w !! r = Some s /\ closed s = false /\
    pending s = m :: rest /\
    w' = set_sockets w (<[r := Socket.set_pending s rest]> (sockets w)).
Proof.
  unfold Socket.next. intros H. bind_inv H.
  apply live_Return_inv in H0 as (-> & Hs & Hc).
  destruct (pending a) as [|m0 rest] eqn:Hp; [discriminate|].
  unfold bind, Socket.store, modify, ret in H. inversion H; subst.
  exists a, rest. auto.
Qed.

(** [recv_array] on a socket with a reply at the head of its queue. *)
Lemma recv_array_incoming w r md buf w' :
  incoming w r = Some (md, buf, w') ->
  recv_array r w =
    match decode md buf with
    | Ok A => Return A w'
    | Err e => Raise e w'
    end.
Proof.
  unfold incoming.
  destruct (sockets w !! r) as [s|] eqn:Hs; [|discriminate].
  destruct (closed s) eqn:Hc; [discriminate|].
  destruct (pending s) as [|m1 [|m2 rest]] eqn:Hp; try discriminate.
  destruct (loads m1) as [md0|] eqn:Hl; [|discriminate].
  intros H. inversion H; subst md buf w'. clear H.
  unfold recv_array, Socket.recv_json, Socket.recv.
  unfold bind at 1. unfold bind at 1.
  rewrite (next_Return _ _ _ _ _ Hs Hc Hp), Hl. unfold ret at 1.
  unfold bind at 1. unfold bind at 1.
  rewrite (next_Return _ r (Socket.set_pending s (m2 :: rest)) m2 rest
             (lookup_stored _ _ _ _ Hs) Hc eq_refl).
  rewrite stored_twice. unfold ret at 1.
  unfold decode, bind, of_result, ret, raise.
  destruct (getitem md0 "dtype") as [x|e]; [|reflexivity].
  destruct (np_dtype x) as [dt|e]; [|reflexivity].
  destruct (frombuffer (bytes m2) dt) as [A|e]; [|reflexivity].
  destruct (getitem md0 "shape") as [y|e]; [|reflexivity].
  destruct (shape_of_json y) as [dims|e]; [|reflexivity].
  destruct (reshape A dims) as [A'|e]; reflexivity.
Qed.

(** A frame only comes out of a reply at the head of the queue. *)
Lemma recv_array_Return_inv w r A w' :
  recv_array r w = Return A w' ->
  exists md buf, incoming w r = Some (md, buf, w') /\ decode md buf = Ok A.
Proof.
  intros H. unfold recv_array in H.
  bind_inv H. unfold Socket.recv_json in H0. bind_inv H0.
  apply next_Return_inv in H1 as (s1 & rest1 & Hs & Hc & Hp & ->).
  destruct (loads a0) as [md|] eqn:Hl; [|discriminate].
  unfold ret in H0. inversion H0; subst a s. clear H0.
  bind_inv H. unfold Socket.recv in H0. bind_inv H0.
  apply next_Return_inv in H1 as (s2 & rest2 & Hs2 & Hc2 & Hp2 & ->).
  rewrite (lookup_stored _ _ _ _ Hs) in Hs2. inversion Hs2; subst s2.
  simpl in Hp2. subst rest1.
  unfold ret in H0. inversion H0; subst a s. clear H0.
  rewrite stored_twice in H.
  exists md, (bytes a1).
  assert (Hin : incoming w r =
                Some (md, bytes a1,
                      set_sockets w (<[r := Socket.set_pending s1 rest2]> (sockets w)))).
  { unfold incoming. rewrite Hs, Hc, Hp, Hl. reflexivity. }
  pose proof (recv_array_incoming _ _ _ _ _ Hin) as Hra.
  assert (Hdone : recv_array r w = Return A w').
  { unfold recv_array, Socket.recv_json, Socket.recv.
    unfold bind at 1. unfold bind at 1.
    rewrite (next_Return _ _ _ _ _ Hs Hc Hp), Hl. unfold ret at 1.
    unfold bind at 1. unfold bind at 1.
    rewrite (next_Return _ r (Socket.set_pending s1 (a1 :: rest2)) a1 rest2
               (lookup_stored _ _ _ _ Hs) Hc eq_refl).
    rewrite stored_twice. unfold ret at 1. exact H. }
  rewrite Hdone in Hra.
  destruct (decode md (bytes a1)) as [A'|e]; [|discriminate].
  inversion Hra; subst. split; [assumption|reflexivity].
Qed.

End Sockets.

(** ** The session *)

Section Session.
Import RemoteBot.

Variable Actions : IntEnum.t.

Lemma lift_Return_inv {A} (m : M World A) st a st' :
  lift m st = Return a st' ->
  exists w', m (world st) = Return a w' /\ st' = {| self := self st; world := w' |}.
Proof.
  unfold lift. destruct (m (world st)) as [a0 w'|e w'|w']; intros H;
    inversion H; subst. exists w'. auto.
Qed.

Lemma lift_Return {A} (m : M World A) st a w' :
  m (world st) = Return a w' ->
  lift m st = Return a {| self := self st; world := w' |}.
Proof. unfold lift. intros ->. reflexivity. Qed.

Lemma attr_Return_inv {A} (f : t -> option A) st a st' :
  attr f st = Return a st' -> f (self st) = Some a /\ st' = st.
Proof.
  unfold attr, bind, gets. destruct (f (self st)) as [a0|]; [|discriminate].
  unfold ret. intros H. inversion H; subst. auto.
Qed.

Lemma attr_Return {A} (f : t -> option A) st a :
  f (self st) = Some a -> attr f st = Return a st.
Proof. unfold attr, bind, gets. intros ->. reflexivity. Qed.

Lemma _recv_frame_Return_inv st u st' :
  _recv_frame st = Return u st' ->
  exists md buf A w',
    incoming (world st) (socket (self st)) = Some (md, buf, w') /\
    decode md buf = Ok A /\
    st' = {| self := set_img (self st) (Some A); world := w' |}.
Proof.
  unfold _recv_frame. intros H. bind_inv H.
  unfold gets in H0. inversion H0; subst a s. clear H0.
  bind_inv H. apply lift_Return_inv in H0 as (w' & Hra & ->).
  apply recv_array_Return_inv in Hra as (md & buf & Hin & Hdec).
  exists md, buf, a, w'. repeat split; try assumption.
  unfold on_self, modify in H. inversion H. reflexivity.
Qed.

Lemma _recv_frame_Return st md buf w' A :
  incoming (world st) (socket (self st)) = Some (md, buf, w') ->
  decode md buf = Ok A ->
  _recv_frame st = Return tt {| self := set_img (self st) (Some A); world := w' |}.
Proof.
  intros Hin Hdec. unfold _recv_frame, bind, gets.
  pose proof (recv_array_incoming _ _ _ _ _ Hin) as Hra. rewrite Hdec in Hra.
  rewrite (lift_Return _ _ _ _ Hra). reflexivity.
Qed.

(** A frame that does not decode is not cached: the exception leaves the
    attributes of the session as they were. *)
Lemma _recv_frame_Raise st md buf w' e :
  incoming (world st) (socket (self st)) = Some (md, buf, w') ->
  decode md buf = Err e ->
  _recv_frame st = Raise e {| self := self st; world := w' |}.
Proof.
  intros Hin Hdec. unfold _recv_frame, bind, gets.
  pose proof (recv_array_incoming _ _ _ _ _ Hin) as Hra. rewrite Hdec in Hra.
  unfold lift. simpl world. simpl self. rewrite Hra. reflexivity.
Qed.

Lemma step_Return_inv action st res st' :
  step Actions action st = Return res st' ->
  exists a n md buf A w1 w2,
    IntEnum.call Actions action = Ok a /\
    Socket.send_json (socket (self st)) (action_command (IntEnum.name a)) (world st)
      = Return tt w1 /\
    incoming w1 (socket (self st)) = Some (md, buf, w2) /\
    decode md buf = Ok A /\
    step_count (self st) = Some n /\
    res = (A, 0, false, false, []) /\
    st' = {| self := set_step_count (set_img (self st) (Some A)) (Some (n + 1));
             world := w2 |}.
Proof.
  unfold step. intros H. bind_inv H.
  unfold gets in H0. inversion H0; subst a s. clear H0.
  bind_inv H. apply of_result_Return_inv in H0 as (Hcall & ->).
  bind_inv H. apply lift_Return_inv in H0 as (w1 & Hsend & ->).
  destruct a0. bind_inv H.
  apply _recv_frame_Return_inv in H0 as (md & buf & A & w2 & Hin & Hdec & ->).
  simpl in Hin. bind_inv H.
  apply attr_Return_inv in H0 as (Hn & ->). simpl in Hn.
  bind_inv H. unfold on_self, modify in H0. inversion H0; subst a2 s. clear H0.
  bind_inv H. apply attr_Return_inv in H0 as (Himg & ->). simpl in Himg.
  unfold ret in H. inversion H; subst res st'. clear H.
  inversion Himg; subst a2.
  exists a, a1, md, buf, A, w1, w2. repeat split; assumption.
Qed.

Lemma step_Return action st a n md buf A w1 w2 :
  IntEnum.call Actions action = Ok a ->
  Socket.send_json (socket (self st)) (action_command (IntEnum.name a)) (world st)
    = Return tt w1 ->
  incoming w1 (socket (self st)) = Some (md, buf, w2) ->
  decode md buf = Ok A ->
  step_count (self st) = Some n ->
  step Actions action st =
    Return (A, 0, false, false, [])
      {| self := set_step_count (set_img (self st) (Some A)) (Some (n + 1));
         world := w2 |}.
Proof.
  intros Hcall Hsend Hin Hdec Hn. unfold step. unfold action_command in Hsend.
  unfold bind at 1. unfold gets at 1.
  rewrite Hcall. unfold bind at 1. unfold of_result, ret at 1.
  unfold bind at 1. rewrite (lift_Return _ _ _ _ Hsend).
  unfold bind at 1.
  rewrite (_recv_frame_Return {| self := self st; world := w1 |} md buf w2 A Hin Hdec).
  unfold bind at 1. rewrite (attr_Return step_count _ n) by exact Hn.
  reflexivity.
Qed.

Lemma reset_Return_inv seed options st res st' :
  reset seed options st = Return res st' ->
  exists md buf A w1 w2,
    Socket.send_json (socket (self st))
      (reset_command (obs_width (self st)) (obs_height (self st))) (world st)
      = Return tt w1 /\
    incoming w1 (socket (self st)) = Some (md, buf, w2) /\
    decode md buf = Ok A /\
    res = (A, []) /\
    st' = {| self := set_img (set_step_count (self st) (Some 0)) (Some A);
             world := w2 |}.
Proof.
  unfold reset. intros H. bind_inv H.
  unfold on_self, modify in H0. inversion H0; subst a s. clear H0.
  bind_inv H. unfold gets in H0. inversion H0; subst a s. clear H0.
  simpl in H. bind_inv H. apply lift_Return_inv in H0 as (w1 & Hsend & ->).
  simpl in Hsend. bind_inv H.
  apply _recv_frame_Return_inv in H0 as (md & buf & A & w2 & Hin & Hdec & ->).
  simpl in Hin. bind_inv H.
  apply attr_Return_inv in H0 as (Himg & ->). simpl in Himg.
  injection Himg as <-.
  unfold ret in H. inversion H; subst res st'. clear H.
  destruct a. exists md, buf, A, w1, w2. repeat split; assumption.
Qed.

Lemma reset_Return seed options st md buf A w1 w2 :
  Socket.send_json (socket (self st))
    (reset_command (obs_width (self st)) (obs_height (self st))) (world st)
    = Return tt w1 ->
  incoming w1 (socket (self st)) = Some (md, buf, w2) ->
  decode md buf = Ok A ->
  reset seed options st =
    Return (A, [])
      {| self := set_img (set_step_count (self st) (Some 0)) (Some A);
         world := w2 |}.
Proof.
  intros Hsend Hin Hdec. unfold reset. unfold reset_command in Hsend.
  unfold bind at 1. unfold on_self at 1, modify.
  unfold bind at 1. unfold gets at 1. simpl self. simpl world.
  unfold bind at 1.
  change (socket (set_step_count (self st) (Some 0))) with (socket (self st)).
  change (obs_width (set_step_count (self st) (Some 0))) with (obs_width (self st)).
  change (obs_height (set_step_count (self st) (Some 0))) with (obs_height (self st)).
  rewrite (lift_Return _ {| self := set_step_count (self st) (Some 0);
                            world := world st |} _ _ Hsend).
  cbn [self world]. unfold bind at 1.
  rewrite (_recv_frame_Return
             {| self := set_step_count (self st) (Some 0); world := w1 |}
             md buf w2 A Hin Hdec).
  reflexivity.
Qed.

End Session.

(** ** C1 and C7: the length check of the decoder *)






Example sample_session_constructed :
  RemoteBot.__init__ sample_Actions "minibot1.local" SERVER_PORT 80 60 None lab
  = Return (RemoteBot.self sample_session) (RemoteBot.world sample_session).
Proof. reflexivity. Qed.

(** ** C2, C3 and C9: [step] *)

Lemma call_not_In (E : IntEnum.t) (v : Z) :
  ~ In v (IntEnum.values E) -> IntEnum.call E v = Err ValueError.
Proof.
  induction E as [|m E IH]; simpl; intros H; [reflexivity|].
  destruct (IntEnum.value m =? v) eqn:Ev.
  - apply Z.eqb_eq in Ev. exfalso. apply H. left. exact Ev.
  - apply IH. intros Hin. apply H. right. exact Hin.
Qed.

Lemma call_Ok_In (E : IntEnum.t) (v : Z) (m : IntEnum.member) :
  IntEnum.call E v = Ok m -> In m E /\ IntEnum.value m = v.
Proof.
  induction E as [|m0 E IH]; simpl; intros H; [discriminate|].
  destruct (IntEnum.value m0 =? v) eqn:Ev.
  - apply Z.eqb_eq in Ev. inversion H; subst m0. split; [left; reflexivity|exact Ev].
  - destruct (IH H) as [Hin Hv]. split; [right; exact Hin|exact Hv].
Qed.

(** C2: an action id outside the enumeration makes [step] raise ValueError
    (the code's InvalidAction) while the arguments of [send_json] are still
    being evaluated: the session and the world, with everything that was
    ever written to the socket, are exactly as before the call. *)
Theorem step_invalid_action (Actions : IntEnum.t) (action : Z) (st : RemoteBot.State) :
  ~ In action (IntEnum.values Actions) ->
  RemoteBot.step Actions action st = Raise ValueError st.
Proof.
  intros H. unfold RemoteBot.step, bind, gets.
  rewrite (call_not_In _ _ H). reflexivity.
Qed.

Lemma step_invalid_action_witness :
  RemoteBot.step sample_Actions 8 sample_session = Raise ValueError sample_session.
Proof.
  apply (step_invalid_action sample_Actions 8 sample_session).
  simpl. lia.
Defined.

(** C3: for a valid action id, a call of [step] that returns, returns the
    frame decoded from the reply to its command (which is then the cached
    frame) with reward 0, termination false, truncation false and an empty
    info dict; and the call does return when the socket is open, the reply
    decodes and the step counter is set. *)
Theorem step_returns_frame (Actions : IntEnum.t) (action : Z) (a : IntEnum.member)
    (st : RemoteBot.State) :
  IntEnum.call Actions action = Ok a ->
  (forall res st',
      RemoteBot.step Actions action st = Return res st' ->
      exists A md buf w1,
        res = (A, 0, false, false, []) /\
        RemoteBot.img (RemoteBot.self st') = Some A /\
        Socket.send_json (RemoteBot.socket (RemoteBot.self st))
          (action_command (IntEnum.name a)) (RemoteBot.world st) = Return tt w1 /\
        incoming w1 (RemoteBot.socket (RemoteBot.self st))
          = Some (md, buf, RemoteBot.world st') /\
        decode md buf = Ok A) /\
  (forall n md buf A w1 w2,
      Socket.send_json (RemoteBot.socket (RemoteBot.self st))
        (action_command (IntEnum.name a)) (RemoteBot.world st) = Return tt w1 ->
      incoming w1 (RemoteBot.socket (RemoteBot.self st)) = Some (md, buf, w2) ->
      decode md buf = Ok A ->
      RemoteBot.step_count (RemoteBot.self st) = Some n ->
      exists st',
        RemoteBot.step Actions action st = Return (A, 0, false, false, []) st' /\
        RemoteBot.img (RemoteBot.self st') = Some A).
Proof.
  intros Hcall. split.
  - intros res st' H.
    apply step_Return_inv in H
      as (a' & n & md & buf & A & w1 & w2 & Hc & Hsend & Hin & Hdec & Hn & -> & ->).
    rewrite Hcall in Hc. injection Hc as <-.
    exists A, md, buf, w1. repeat split; assumption.
  - intros n md buf A w1 w2 Hsend Hin Hdec Hn.
    eexists. split.
    + apply (step_Return Actions action st a n md buf A w1 w2); assumption.
    + reflexivity.
Qed.

Lemma step_returns_frame_witness :
  exists st',
    RemoteBot.step sample_Actions 2 sample_session
      = Return (tiny x01, 0, false, false, []) st' /\
    RemoteBot.img (RemoteBot.self st') = Some (tiny x01).
Proof.
  apply (step_returns_frame sample_Actions 2 (member "move_forward" 2) sample_session
           eq_refl)
    with (n := 0) (md := header "uint8" [2; 2; 3]) (buf := repeat x01 12)
         (w1 := sample_world [reset_command 80 60; action_command "move_forward"]
                  (reply (header "uint8" [2; 2; 3]) (repeat x01 12) ++
                   reply (header "uint8" [2; 2; 3]) (repeat x02 12))%list)
         (w2 := sample_world [reset_command 80 60; action_command "move_forward"]
                  (reply (header "uint8" [2; 2; 3]) (repeat x02 12)));
    reflexivity.
Defined.

Section Exchange.
Import zmq.

Lemma exchange_intro w r s cmd m1 m2 rest md :
  sockets w !! r = Some s -> closed s = false ->
  pending s = m1 :: m2 :: rest -> loads m1 = Some md ->
  exists w1,
    Socket.send_json r cmd w = Return tt w1 /\
    incoming w1 r =
      Some (md, bytes m2, set_sockets w (<[r := exchanged s cmd rest]> (sockets w))).
Proof.
  intros Hs Hc Hp Hl. eexists. split.
  - apply send_json_Return; eassumption.
  - unfold incoming. rewrite (lookup_stored _ _ _ _ Hs).
    simpl closed. rewrite Hc. simpl pending. rewrite Hp, Hl.
    rewrite stored_twice. reflexivity.
Qed.

Lemma exchange_inv w r cmd w1 md buf w2 :
  Socket.send_json r cmd w = Return tt w1 ->
  incoming w1 r = Some (md, buf, w2) ->
  exists s m1 m2 rest,
    sockets w !! r = Some s /\ closed s = false /\
    pending s = m1 :: m2 :: rest /\ loads m1 = Some md /\ bytes m2 = buf /\
    w2 = set_sockets w (<[r := exchanged s cmd rest]> (sockets w)).
Proof.
  intros Hsend Hin.
  apply send_json_Return_inv in Hsend as (s & Hs & Hc & ->).
  unfold incoming in Hin. rewrite (lookup_stored _ _ _ _ Hs) in Hin.
  simpl closed in Hin. rewrite Hc in Hin. simpl pending in Hin.
  destruct (pending s) as [|m1 [|m2 rest]] eqn:Hp; try discriminate.
  destruct (loads m1) as [md0|] eqn:Hl; [|discriminate].
  rewrite stored_twice in Hin. inversion Hin; subst.
  exists s, m1, m2, rest. repeat split; assumption.
Qed.

Lemma recv_array_Blocked w r s :
  sockets w !! r = Some s -> closed s = false -> pending s = [] ->
  recv_array r w = Blocked w.
Proof.
  intros Hs Hc Hp. unfold recv_array, Socket.recv_json.
  unfold bind at 1. unfold bind at 1.
  rewrite (next_Blocked _ _ _ Hs Hc Hp). reflexivity.
Qed.

Lemma recv_array_Blocked_payload w r s m1 md :
  sockets w !! r = Some s -> closed s = false -> pending s = [m1] ->
  loads m1 = Some md ->
  recv_array r w = Blocked (set_sockets w (<[r := Socket.set_pending s []]> (sockets w))).
Proof.
  intros Hs Hc Hp Hl. unfold recv_array, Socket.recv_json, Socket.recv.
  unfold bind at 1. unfold bind at 1.
  rewrite (next_Return _ _ _ _ _ Hs Hc Hp), Hl. unfold ret at 1.
  unfold bind at 1. unfold bind at 1.
  rewrite (next_Blocked _ r (Socket.set_pending s [])
             (lookup_stored _ _ _ _ Hs) Hc eq_refl).
  reflexivity.
Qed.

End Exchange.

(** C9: a call of [step] that returns has added exactly 1 to the step
    counter and has replaced the cached frame; every other attribute of the
    session (among them obs_width, obs_height, the socket reference, the
    render mode and the window) is as before.  A call of [reset] that
    returns leaves the step counter at exactly 0. *)
Theorem step_reset_frame_effect (Actions : IntEnum.t) (st : RemoteBot.State) :
  (forall action res st',
      RemoteBot.step Actions action st = Return res st' ->
      exists n A,
        RemoteBot.step_count (RemoteBot.self st) = Some n /\
        RemoteBot.step_count (RemoteBot.self st') = Some (n + 1) /\
        RemoteBot.self st' =
          RemoteBot.set_step_count
            (RemoteBot.set_img (RemoteBot.self st) (Some A)) (Some (n + 1)) /\
        RemoteBot.obs_width (RemoteBot.self st') = RemoteBot.obs_width (RemoteBot.self st) /\
        RemoteBot.obs_height (RemoteBot.self st') = RemoteBot.obs_height (RemoteBot.self st) /\
        RemoteBot.socket (RemoteBot.self st') = RemoteBot.socket (RemoteBot.self st) /\
        RemoteBot.render_mode (RemoteBot.self st') = RemoteBot.render_mode (RemoteBot.self st) /\
        RemoteBot.window (RemoteBot.self st') = RemoteBot.window (RemoteBot.self st)) /\
  (forall seed options res st',
      RemoteBot.reset seed options st = Return res st' ->
      RemoteBot.step_count (RemoteBot.self st') = Some 0).
Proof.
  split.
  - intros action res st' H.
    apply step_Return_inv in H
      as (a & n & md & buf & A & w1 & w2 & _ & _ & _ & _ & Hn & _ & ->).
    exists n, A. repeat split; try reflexivity. exact Hn.
  - intros seed options res st' H.
    apply reset_Return_inv in H as (md & buf & A & w1 & w2 & _ & _ & _ & _ & ->).
    reflexivity.
Qed.

Lemma step_reset_frame_effect_witness :
  (exists n A,
      RemoteBot.step_count sample_bot = Some n /\
      RemoteBot.step_count
        (RemoteBot.set_step_count (RemoteBot.set_img sample_bot (Some (tiny x01))) (Some 1))
        = Some (n + 1) /\
      RemoteBot.set_step_count (RemoteBot.set_img sample_bot (Some (tiny x01))) (Some 1) =
        RemoteBot.set_step_count (RemoteBot.set_img sample_bot (Some A)) (Some (n + 1)) /\
      80 = RemoteBot.obs_width sample_bot /\
      60 = RemoteBot.obs_height sample_bot /\
      0%nat = RemoteBot.socket sample_bot /\
      None = RemoteBot.render_mode sample_bot /\
      None = RemoteBot.window sample_bot) /\
  RemoteBot.step_count
    (RemoteBot.set_img (RemoteBot.set_step_count sample_bot (Some 0)) (Some (tiny x01)))
    = Some 0.
Proof.
  split.
  - exact (proj1 (step_reset_frame_effect sample_Actions sample_session) 1
             (tiny x01, 0, false, false, [])
             {| RemoteBot.self :=
                  RemoteBot.set_step_count
                    (RemoteBot.set_img sample_bot (Some (tiny x01))) (Some 1);
                RemoteBot.world :=
                  sample_world [reset_command 80 60; action_command "turn_right"]
                    (reply (header "uint8" [2; 2; 3]) (repeat x02 12)) |}
             eq_refl).
  - exact (proj2 (step_reset_frame_effect sample_Actions sample_session) None None
             (tiny x01, [])
             {| RemoteBot.self :=
                  RemoteBot.set_img
                    (RemoteBot.set_step_count sample_bot (Some 0)) (Some (tiny x01));
                RemoteBot.world :=
                  sample_world [reset_command 80 60; reset_command 80 60]
                    (reply (header "uint8" [2; 2; 3]) (repeat x02 12)) |}
             eq_refl).
Defined.

(** ** C4 and C8: [reset] and the constructor *)

Section Reset.
Import RemoteBot zmq.

Lemma reset_Raise seed options st md buf e w1 w2 :
  Socket.send_json (socket (self st))
    (reset_command (obs_width (self st)) (obs_height (self st))) (world st)
    = Return tt w1 ->
  incoming w1 (socket (self st)) = Some (md, buf, w2) ->
  decode md buf = Err e ->
  reset seed options st =
    Raise e {| self := set_step_count (self st) (Some 0); world := w2 |}.
Proof.
  intros Hsend Hin Hdec. unfold reset. unfold reset_command in Hsend.
  unfold bind at 1. unfold on_self at 1, modify.
  unfold bind at 1. unfold gets at 1. simpl self. simpl world.
  unfold bind at 1.
  change (socket (set_step_count (self st) (Some 0))) with (socket (self st)).
  change (obs_width (set_step_count (self st) (Some 0))) with (obs_width (self st)).
  change (obs_height (set_step_count (self st) (Some 0))) with (obs_height (self st)).
  rewrite (lift_Return _ {| self := set_step_count (self st) (Some 0);
                            world := world st |} _ _ Hsend).
  cbn [self world]. unfold bind at 1.
  rewrite (_recv_frame_Raise
             {| self := set_step_count (self st) (Some 0); world := w1 |}
             md buf w2 e Hin Hdec).
  reflexivity.
Qed.


End Reset.

(** C4: on a session with obs_width 80 and obs_height 60, [reset] writes
    exactly [{"command":"reset","obs_width":80,"obs_height":60}]; when the
    reply has the header [{"dtype":"uint8","shape":[60,80,3]}], a payload of
    14400 bytes is returned as a frame of shape (60,80,3), and a payload of
    14000 bytes makes the call raise ValueError (the code's SizeMismatch),
    the cached frame staying as it was. *)
Theorem reset_scenario (st : RemoteBot.State) (s : zmq.Socket)
    (m1 m2 : zmq.msg) (rest : list zmq.msg) :
  RemoteBot.obs_width (RemoteBot.self st) = 80 ->
  RemoteBot.obs_height (RemoteBot.self st) = 60 ->
  sockets (RemoteBot.world st) !! RemoteBot.socket (RemoteBot.self st) = Some s ->
  zmq.closed s = false ->
  zmq.pending s = m1 :: m2 :: rest ->
  zmq.loads m1 = Some (header "uint8" [60; 80; 3]) ->
  let s' :=
    {| zmq.peer := zmq.peer s; zmq.closed := false;
       zmq.sent :=
         (zmq.sent s ++
          [JObj [("command", JStr "reset"); ("obs_width", JInt 80);
                 ("obs_height", JInt 60)]])%list;
       zmq.pending := rest |} in
  let w' :=
    set_sockets (RemoteBot.world st)
      (<[RemoteBot.socket (RemoteBot.self st) := s']> (sockets (RemoteBot.world st))) in
  let frame := {| dtype := uint8; shape := [60; 80; 3]; data := zmq.bytes m2 |} in
  (Z.of_nat (length (zmq.bytes m2)) = 14400 ->
   RemoteBot.reset None None st =
     Return (frame, [])
       {| RemoteBot.self :=
            RemoteBot.set_img
              (RemoteBot.set_step_count (RemoteBot.self st) (Some 0)) (Some frame);
          RemoteBot.world := w' |}) /\
  (Z.of_nat (length (zmq.bytes m2)) = 14000 ->
   RemoteBot.reset None None st =
     Raise ValueError
       {| RemoteBot.self := RemoteBot.set_step_count (RemoteBot.self st) (Some 0);
          RemoteBot.world := w' |}).
Proof.
  intros Hw Hh Hs Hc Hp Hl s' w' frame.
  destruct (exchange_intro (RemoteBot.world st) (RemoteBot.socket (RemoteBot.self st))
              s (reset_command 80 60) m1 m2 rest _ Hs Hc Hp Hl)
    as (w1 & Hsend & Hin).
  assert (Hw' : set_sockets (RemoteBot.world st)
                  (<[RemoteBot.socket (RemoteBot.self st) :=
                       exchanged s (reset_command 80 60) rest]>
                     (sockets (RemoteBot.world st))) = w').
  { unfold w', s', exchanged, Socket.set_pending, Socket.set_sent. simpl.
    rewrite Hc. reflexivity. }
  rewrite Hw' in Hin.
  rewrite <- Hw, <- Hh in Hsend.
  assert (Hdims : Forall (fun d => 0 <= d) [60; 80; 3])
    by (repeat constructor; lia).
  pose proof (decode_header uint8 [60; 80; 3] (zmq.bytes m2) Hdims) as Hdec.
  change (dtype_name uint8) with "uint8" in Hdec.
  change (prod [60; 80; 3] * itemsize uint8) with 14400 in Hdec.
  split; intros Hlen; rewrite Hlen in Hdec.
  - apply (reset_Return None None st _ _ frame w1 w' Hsend Hin Hdec).
  - apply (reset_Raise None None st _ _ ValueError w1 w' Hsend Hin Hdec).
Qed.

Lemma reset_scenario_witness :
  (exists st',
      RemoteBot.reset None None (camera_session 14400) =
        Return ({| dtype := uint8; shape := [60; 80; 3]; data := repeat x00 (Z.to_nat 14400) |}, [])
          st' /\
      sockets (RemoteBot.world st') =
        [sample_socket
           [JObj [("command", JStr "reset"); ("obs_width", JInt 80);
                  ("obs_height", JInt 60)]] []]) /\
  (exists st',
      RemoteBot.reset None None (camera_session 14000) = Raise ValueError st' /\
      RemoteBot.img (RemoteBot.self st') = Some (tiny x00)).
Proof.
  split.
  - eexists. split.
    + apply (reset_scenario (camera_session 14400)
               (sample_socket [] (reply (header "uint8" [60; 80; 3]) (repeat x00 (Z.to_nat 14400))))
               {| zmq.bytes := []; zmq.loads := Some (header "uint8" [60; 80; 3]) |}
               {| zmq.bytes := repeat x00 (Z.to_nat 14400); zmq.loads := None |} []
               eq_refl eq_refl eq_refl eq_refl eq_refl eq_refl).
      vm_compute. reflexivity.
    + reflexivity.
  - eexists. split.
    + apply (reset_scenario (camera_session 14000)
               (sample_socket [] (reply (header "uint8" [60; 80; 3]) (repeat x00 (Z.to_nat 14000))))
               {| zmq.bytes := []; zmq.loads := Some (header "uint8" [60; 80; 3]) |}
               {| zmq.bytes := repeat x00 (Z.to_nat 14000); zmq.loads := None |} []
               eq_refl eq_refl eq_refl eq_refl eq_refl eq_refl).
      vm_compute. reflexivity.
    + reflexivity.
Defined.

Section Constructor.
Import RemoteBot zmq.

Variable Actions : IntEnum.t.

Lemma init_construct serverAddr serverPort ow oh rm w :
  zmq_imported w = true ->
  __init__ Actions serverAddr serverPort ow oh rm w =
    construct (fresh_bot Actions ow oh rm (length (sockets w)))
      (reset None None ;; ret tt)
      (set_sockets w
         (sockets w ++ [connected w {| host := serverAddr; port := serverPort |}])).
Proof.
  intros Himp. unfold __init__.
  unfold bind at 1. unfold gets at 1. rewrite Himp. cbn [negb]. cbv beta iota.
  unfold bind at 1. unfold Socket.socket at 1.
  unfold Socket.connect. unfold bind at 1.
  set (blank := {| peer := None; closed := false; sent := []; pending := [] |}).
  assert (Hs : sockets (set_sockets w (sockets w ++ [blank])) !! length (sockets w)
               = Some blank).
  { simpl. apply list_lookup_middle. reflexivity. }
  rewrite (bind_Return _ _ _ _ _ (live_Return _ _ _ Hs eq_refl)).
  unfold bind, gets, Socket.store, modify. simpl.
  rewrite insert_app_r_alt by lia. rewrite Nat.sub_diag. reflexivity.
Qed.

Lemma init_Return_inv serverAddr serverPort ow oh rm w o w' :
  __init__ Actions serverAddr serverPort ow oh rm w = Return o w' ->
  exists m1 m2 rest md A,
    zmq_imported w = true /\
    network w {| host := serverAddr; port := serverPort |} = m1 :: m2 :: rest /\
    loads m1 = Some md /\
    decode md (bytes m2) = Ok A /\
    o = set_img (set_step_count
                   (fresh_bot Actions ow oh rm (length (sockets w))) (Some 0))
          (Some A) /\
    w' = set_sockets w
           (sockets w ++
            [exchanged (connected w {| host := serverAddr; port := serverPort |})
               (reset_command ow oh) rest]).
Proof.
  intros H.
  destruct (zmq_imported w) eqn:Himp.
  2:{ unfold __init__, bind, gets in H. rewrite Himp in H. discriminate. }
  rewrite (init_construct _ _ _ _ _ _ Himp) in H.
  unfold construct in H.
  match type of H with
  | match ?body ?st0 with _ => _ end = _ =>
      destruct (body st0) as [u st1|e st1|st1] eqn:Hbody; try discriminate
  end.
  inversion H; subst o w'. clear H.
  bind_inv Hbody. unfold ret in Hbody. inversion Hbody; subst s. clear Hbody.
  apply reset_Return_inv in Hbody0
    as (md & buf & A & w1 & w2 & Hsend & Hin & Hdec & _ & ->).
  simpl in Hsend, Hin.
  destruct (exchange_inv _ _ _ _ _ _ _ Hsend Hin)
    as (s & m1 & m2 & rest & Hs & Hc & Hp & Hl & Hb & ->).
  simpl in Hs. rewrite list_lookup_middle in Hs by reflexivity.
  injection Hs as <-. simpl in Hp.
  exists m1, m2, rest, md, A. subst buf.
  repeat split; try assumption. simpl.
  rewrite insert_app_r_alt by lia. rewrite Nat.sub_diag. reflexivity.
Qed.


End Constructor.



(** ** C5: turn-taking *)

(** C5, as stated, fails: nothing refuses a second command.  On a socket
    on which one command is already waiting for its reply, a second
    [send_json] returns and the command is written. *)
Lemma send_twice_counterexample :
  ~ (forall (w : World) (r : nat) (c1 c2 : json) (w1 : World),
        Socket.send_json r c1 w = Return tt w1 ->
        exists e, Socket.send_json r c2 w1 = Raise e w1).
Proof.
  intros H.
  destruct (H (one_socket []) 0%nat (reset_command 80 60) (action_command "turn_left")
              _ eq_refl) as [e He].
  discriminate He.
Qed.

Section TurnTaking.
Import RemoteBot zmq.

Variable Actions : IntEnum.t.

(** One call that returns is one exchange on the socket of the session. *)
Lemma perform_Return_inv c st u st' :
  perform Actions c st = Return u st' ->
  exists s cmd m1 m2 rest,
    sockets (world st) !! socket (self st) = Some s /\
    pending s = m1 :: m2 :: rest /\
    socket (self st') = socket (self st) /\
    world st' =
      set_sockets (world st)
        (<[socket (self st) := exchanged s cmd rest]> (sockets (world st))).
Proof.
  destruct c as [|action]; simpl; intros H; bind_inv H;
    unfold ret in H; inversion H; subst; clear H.
  - apply reset_Return_inv in H0
      as (md & buf & A & w1 & w2 & Hsend & Hin & _ & _ & ->).
    destruct (exchange_inv _ _ _ _ _ _ _ Hsend Hin)
      as (s & m1 & m2 & rest & Hs & _ & Hp & _ & _ & ->).
    exists s, (reset_command (obs_width (self st)) (obs_height (self st))), m1, m2, rest.
    repeat split; assumption.
  - apply step_Return_inv in H0
      as (a' & n & md & buf & A & w1 & w2 & _ & Hsend & Hin & _ & _ & _ & ->).
    destruct (exchange_inv _ _ _ _ _ _ _ Hsend Hin)
      as (s & m1 & m2 & rest & Hs & _ & Hp & _ & _ & ->).
    exists s, (action_command (IntEnum.name a')), m1, m2, rest.
    repeat split; assumption.
Qed.

End TurnTaking.

(** C5 (amended): the session never refuses a command and has no
    SequenceError: on an open socket [send_json] returns and writes, whatever
    is still unanswered.  Turn-taking holds because every [reset] and every
    [step] writes one command and then takes one reply before it returns:
    after any sequence of calls that all returned, the socket has been
    written one command per call and nothing else, and two messages (header
    and payload) per call have been taken from the head of its queue. *)
Theorem calls_alternate (Actions : IntEnum.t) (cs : list call)
    (st st' : RemoteBot.State) (s : zmq.Socket) :
  sockets (RemoteBot.world st) !! RemoteBot.socket (RemoteBot.self st) = Some s ->
  (zmq.closed s = false ->
   forall cmd,
     Socket.send_json (RemoteBot.socket (RemoteBot.self st)) cmd (RemoteBot.world st) =
       Return tt
         (set_sockets (RemoteBot.world st)
            (<[RemoteBot.socket (RemoteBot.self st) :=
                 Socket.set_sent s (zmq.sent s ++ [cmd])%list]>
               (sockets (RemoteBot.world st))))) /\
  (perform_all Actions cs st = Return tt st' ->
   exists s' cmds taken,
     RemoteBot.socket (RemoteBot.self st') = RemoteBot.socket (RemoteBot.self st) /\
     sockets (RemoteBot.world st') !! RemoteBot.socket (RemoteBot.self st) = Some s' /\
     zmq.sent s' = (zmq.sent s ++ cmds)%list /\
     length cmds = length cs /\
     zmq.pending s = (taken ++ zmq.pending s')%list /\
     length taken = (2 * length cs)%nat).
Proof.
  intros Hs. split.
  { intros Hc cmd. apply send_json_Return; assumption. }
  revert st s Hs. induction cs as [|c cs IH]; intros st s Hs H.
  - simpl in H. unfold ret in H. inversion H; subst st'.
    exists s, [], []. repeat split; try assumption.
    rewrite app_nil_r. reflexivity.
  - simpl in H. bind_inv H.
    apply perform_Return_inv in H0
      as (sk & cmd & m1 & m2 & rest & Hsk & Hp & Hsock & Hw).
    rewrite Hs in Hsk. injection Hsk as <-.
    assert (Hs1 : sockets (RemoteBot.world s0) !! RemoteBot.socket (RemoteBot.self s0)
                  = Some (exchanged s cmd rest)).
    { rewrite Hsock, Hw. apply (lookup_stored _ _ _ _ Hs). }
    destruct (IH s0 _ Hs1 H) as (s' & cmds & taken & Hr & Hl & Hsent & Hn & Hpend & Ht).
    exists s', (cmd :: cmds), (m1 :: m2 :: taken).
    rewrite Hsock in Hr, Hl. repeat split; try assumption.
    + rewrite Hsent. simpl. rewrite <- app_assoc. reflexivity.
    + simpl. rewrite Hn. reflexivity.
    + rewrite Hp. simpl in Hpend. rewrite Hpend. reflexivity.
    + simpl. rewrite Ht. lia.
Qed.

Lemma calls_alternate_witness :
  (forall cmd,
      Socket.send_json 0 cmd (RemoteBot.world sample_session) =
        Return tt
          (sample_world [reset_command 80 60; cmd]
             (reply (header "uint8" [2; 2; 3]) (repeat x01 12) ++
              reply (header "uint8" [2; 2; 3]) (repeat x02 12))%list)) /\
  (exists s' cmds taken,
      RemoteBot.socket sample_bot = RemoteBot.socket (RemoteBot.self sample_session) /\
      [sample_socket
         [reset_command 80 60; action_command "turn_left"; reset_command 80 60] []]
        !! RemoteBot.socket (RemoteBot.self sample_session) = Some s' /\
      zmq.sent s' = ([reset_command 80 60] ++ cmds)%list /\
      length cmds = 2%nat /\
      (reply (header "uint8" [2; 2; 3]) (repeat x01 12) ++
       reply (header "uint8" [2; 2; 3]) (repeat x02 12))%list
        = (taken ++ zmq.pending s')%list /\
      length taken = 4%nat).
Proof.
  pose proof
    (calls_alternate sample_Actions [Step 0; Reset] sample_session
       {| RemoteBot.self :=
            RemoteBot.set_img
              (RemoteBot.set_step_count sample_bot (Some 0)) (Some (tiny x02));
          RemoteBot.world :=
            sample_world
              [reset_command 80 60; action_command "turn_left"; reset_command 80 60]
              [] |}
       _ eq_refl) as [Hsend Hcalls].
  split.
  - exact (Hsend eq_refl).
  - exact (Hcalls eq_refl).
Defined.

(** ** C6: [close] *)

(** C6, as stated, fails: after [close] the socket of the session is still
    in the table of sockets and still open. *)
Lemma close_counterexample :
  ~ (forall st st',
        RemoteBot.close st = Return tt st' ->
        forall s,
          sockets (RemoteBot.world st') !! RemoteBot.socket (RemoteBot.self st') = Some s ->
          zmq.closed s = true).
Proof.
  intros H.
  specialize (H sample_session sample_session eq_refl _ eq_refl).
  discriminate H.
Qed.

(** C6 (amended): [close] can be called in every state and always returns;
    it closes the display window when there is one and changes nothing
    else: the world, with the socket of the session, is as it was (the
    socket is neither closed nor released), and so is every attribute of the
    session but the window. *)
Theorem close_only_closes_window (st : RemoteBot.State) :
  exists st',
    RemoteBot.close st = Return tt st' /\
    RemoteBot.world st' = RemoteBot.world st /\
    RemoteBot.self st' =
      RemoteBot.set_window (RemoteBot.self st)
        (option_map pyglet.close (RemoteBot.window (RemoteBot.self st))) /\
    RemoteBot.socket (RemoteBot.self st') = RemoteBot.socket (RemoteBot.self st) /\
    (forall win, RemoteBot.window (RemoteBot.self st) = Some win ->
                 RemoteBot.window (RemoteBot.self st') = Some (pyglet.close win)).
Proof.
  destruct st as [o w]. simpl.
  destruct (RemoteBot.window o) as [win|] eqn:Hwin.
  - exists {| RemoteBot.self := RemoteBot.set_window o (Some (pyglet.close win));
              RemoteBot.world := w |}.
    split.
    { unfold RemoteBot.close, bind, gets. simpl. rewrite Hwin. reflexivity. }
    simpl. repeat split.
    intros win' Hw'. injection Hw' as <-. reflexivity.
  - exists {| RemoteBot.self := o; RemoteBot.world := w |}.
    split.
    { unfold RemoteBot.close, bind, gets. simpl. rewrite Hwin. reflexivity. }
    simpl. repeat split.
    + destruct o. simpl in Hwin. subst. reflexivity.
    + intros win' Hw'. discriminate.
Qed.

Lemma close_only_closes_window_witness :
  exists st',
    RemoteBot.close windowed_session = Return tt st' /\
    RemoteBot.world st' = RemoteBot.world sample_session /\
    RemoteBot.self st' =
      RemoteBot.set_window sample_bot
        (Some {| pyglet.width := 800; pyglet.height := 600; pyglet.closed := true |}) /\
    RemoteBot.socket (RemoteBot.self st') = 0%nat /\
    (forall win,
        RemoteBot.window (RemoteBot.self windowed_session) = Some win ->
        RemoteBot.window (RemoteBot.self st') = Some (pyglet.close win)).
Proof. exact (close_only_closes_window windowed_session). Defined.

(** ** C10: the action space of the simulated environments *)

Lemma Discrete_3_movement (x : Z) :
  spaces.contains (spaces.Discrete 3) x = true <-> In x (IntEnum.values movement).
Proof.
  simpl. rewrite andb_true_iff, Z.leb_le, Z.ltb_lt. lia.
Qed.

Lemma getattr_move_forward (rest : IntEnum.t) :
  IntEnum.getattr (movement ++ rest)%list "move_forward" = Ok (member "move_forward" 2).
Proof. reflexivity. Qed.

(** C10: whenever the base constructor leaves on the object an enumeration
    that starts with turn_left = 0, turn_right = 1, move_forward = 2,
    however it goes on, the constructors of Hallway, ThreeRooms and
    SimToRealGoTo return an environment whose action space is Discrete(3):
    exactly the values of the first three actions. *)
Theorem movement_action_space (super__init__ : MiniWorldEnv.init) (kwargs : dict)
    (length : Z) (rest : IntEnum.t) :
  (forall steps params domain_rand self,
      super__init__ steps params domain_rand kwargs = Ok self ->
      MiniWorldEnv.actions self = (movement ++ rest)%list) ->
  (forall self,
      length >= 2 ->
      super__init__ 250 MiniWorldEnv.DEFAULT_PARAMS false kwargs = Ok self ->
      exists env,
        Hallway.__init__ super__init__ length kwargs = Ok env /\
        only_movement (Hallway.base env) /\
        MiniWorldEnv.actions (Hallway.base env) = (movement ++ rest)%list) /\
  (forall self,
      super__init__ 400 MiniWorldEnv.DEFAULT_PARAMS false kwargs = Ok self ->
      exists env,
        ThreeRooms.__init__ super__init__ kwargs = Ok env /\
        only_movement env /\
        MiniWorldEnv.actions env = (movement ++ rest)%list) /\
  (forall self,
      super__init__ 100 MiniWorldEnv.sim_params true kwargs = Ok self ->
      exists env,
        SimToRealGoTo.__init__ super__init__ kwargs = Ok env /\
        only_movement env /\
        MiniWorldEnv.actions env = (movement ++ rest)%list).
Proof.
  intros Hact.
  assert (Hmove : forall self,
             MiniWorldEnv.actions self = (movement ++ rest)%list ->
             only_movement
               (MiniWorldEnv.set_action_space self
                  (spaces.Discrete (IntEnum.value (member "move_forward" 2) + 1)))).
  { intros self Ha. unfold only_movement. simpl. rewrite Ha.
    repeat split; apply Discrete_3_movement. }
  repeat split.
  - intros self Hlen Hsuper. pose proof (Hact _ _ _ _ Hsuper) as Ha.
    unfold Hallway.__init__.
    assert (Hge : (length >=? 2) = true) by (apply Z.geb_le; lia).
    rewrite Hge, Hsuper, Ha, getattr_move_forward. simpl negb. cbv iota.
    eexists. split; [reflexivity|]. split; [apply Hmove; exact Ha|exact Ha].
  - intros self Hsuper. pose proof (Hact _ _ _ _ Hsuper) as Ha.
    unfold ThreeRooms.__init__. rewrite Hsuper, Ha, getattr_move_forward.
    eexists. split; [reflexivity|]. split; [apply Hmove; exact Ha|exact Ha].
  - intros self Hsuper. pose proof (Hact _ _ _ _ Hsuper) as Ha.
    unfold SimToRealGoTo.__init__. rewrite Hsuper, Ha, getattr_move_forward.
    eexists. split; [reflexivity|]. split; [apply Hmove; exact Ha|exact Ha].
Qed.

Lemma movement_action_space_witness :
  (exists env,
      Hallway.__init__ sample_super 12 [] = Ok env /\
      only_movement (Hallway.base env) /\
      MiniWorldEnv.actions (Hallway.base env) = sample_Actions) /\
  (exists env,
      ThreeRooms.__init__ sample_super [] = Ok env /\
      only_movement env /\ MiniWorldEnv.actions env = sample_Actions) /\
  (exists env,
      SimToRealGoTo.__init__ sample_super [] = Ok env /\
      only_movement env /\ MiniWorldEnv.actions env = sample_Actions).
Proof.
  assert (Hact : forall steps params domain_rand self,
             sample_super steps params domain_rand [] = Ok self ->
             MiniWorldEnv.actions self = sample_Actions).
  { intros steps params domain_rand self H. injection H as <-. reflexivity. }
  destruct (movement_action_space sample_super [] 12 _ Hact) as (H1 & H2 & H3).
  split; [|split].
  - apply (H1 _ ltac:(lia) eq_refl).
  - apply (H2 _ eq_refl).
  - apply (H3 _ eq_refl).
Defined.

(** * Further properties *)

(** ** The shapes [reshape] accepts *)

Section Shapes.

Lemma prod_app (l1 l2 : list Z) : prod (l1 ++ l2) = prod l1 * prod l2.
Proof.
  induction l1 as [|d l1 IH]; simpl.
  - change (prod l2) with (fold_right Z.mul 1 l2). lia.
  - fold (prod (l1 ++ l2)). fold (prod l1). rewrite IH. lia.
Qed.

Lemma scan_dims_wildcard (pre post : list Z) (d : Z) :
  Forall (fun d => 0 <= d) pre -> d < 0 -> Forall (fun d => 0 <= d) post ->
  forall i s_known,
    scan_dims (pre ++ d :: post) i s_known None =
      Some (s_known * (prod pre * prod post), Some (i + length pre)%nat).
Proof.
  intros Hpre Hd Hpost. induction Hpre as [|p pre Hp _ IH]; intros i s_known; simpl.
  - apply Z.ltb_lt in Hd. rewrite Hd.
    rewrite (scan_dims_nonneg post Hpost). f_equal. f_equal; [|f_equal; lia].
    fold (prod post). lia.
  - destruct (p <? 0) eqn:E; [apply Z.ltb_lt in E; lia|].
    rewrite IH. f_equal. f_equal; [|f_equal; lia].
    fold (prod pre). lia.
Qed.

Lemma scan_dims_found_negative (dims : list Z) :
  (1 <= negatives dims)%nat ->
  forall i s_known j, scan_dims dims i s_known (Some j) = None.
Proof.
  induction dims as [|d dims IH]; simpl; intros H i s_known j; [lia|].
  destruct (d <? 0) eqn:E; [reflexivity|].
  apply IH. exact H.
Qed.

Lemma scan_dims_two_negatives (dims : list Z) :
  (2 <= negatives dims)%nat ->
  forall i s_known, scan_dims dims i s_known None = None.
Proof.
  induction dims as [|d dims IH]; simpl; intros H i s_known; [lia|].
  destruct (d <? 0) eqn:E.
  - apply scan_dims_found_negative. lia.
  - apply IH. exact H.
Qed.

Lemma negatives_app (l1 l2 : list Z) :
  negatives (l1 ++ l2) = (negatives l1 + negatives l2)%nat.
Proof.
  induction l1 as [|d l1 IH]; simpl; [reflexivity|]. rewrite IH. lia.
Qed.

(** A list of integers has no negative entry, exactly one, or more. *)
Lemma dims_cases (dims : list Z) :
  Forall (fun d => 0 <= d) dims \/
  (exists pre d post,
      dims = (pre ++ d :: post)%list /\ d < 0 /\
      Forall (fun d => 0 <= d) pre /\ Forall (fun d => 0 <= d) post) \/
  (2 <= negatives dims)%nat.
Proof.
  induction dims as [|d dims IH].
  - left. constructor.
  - destruct (d <? 0) eqn:E.
    + destruct IH as [Hall|[(pre & d' & post & -> & Hd' & Hpre & Hpost)|Hmany]].
      * right. left. exists [], d, dims. apply Z.ltb_lt in E.
        repeat split; try assumption. constructor.
      * right. right. simpl. rewrite E, negatives_app. simpl.
        apply Z.ltb_lt in Hd'. rewrite Hd'. lia.
      * right. right. simpl. rewrite E. lia.
    + destruct IH as [Hall|[(pre & d' & post & -> & Hd' & Hpre & Hpost)|Hmany]].
      * left. apply Z.ltb_ge in E. constructor; assumption.
      * right. left. exists (d :: pre), d', post. apply Z.ltb_ge in E.
        repeat split; try assumption. constructor; assumption.
      * right. right. simpl. rewrite E. exact Hmany.
Qed.

Lemma fix_unknown_dimension_wildcard (pre post : list Z) (d n : Z) :
  Forall (fun d => 0 <= d) pre -> d < 0 -> Forall (fun d => 0 <= d) post ->
  fix_unknown_dimension (pre ++ d :: post) n =
    if (prod pre * prod post =? 0) || negb (n mod (prod pre * prod post) =? 0)
    then Err ValueError
    else Ok (pre ++ n / (prod pre * prod post) :: post)%list.
Proof.
  intros Hpre Hd Hpost. unfold fix_unknown_dimension.
  rewrite (scan_dims_wildcard pre post d Hpre Hd Hpost).
  replace (1 * (prod pre * prod post)) with (prod pre * prod post) by lia.
  destruct ((prod pre * prod post =? 0) || negb (n mod (prod pre * prod post) =? 0));
    [reflexivity|].
  f_equal. simpl. rewrite insert_app_r_alt by lia. rewrite Nat.sub_diag. reflexivity.
Qed.

Lemma fix_unknown_dimension_two_negatives (dims : list Z) (n : Z) :
  (2 <= negatives dims)%nat -> fix_unknown_dimension dims n = Err ValueError.
Proof.
  intros H. unfold fix_unknown_dimension.
  rewrite (scan_dims_two_negatives dims H). reflexivity.
Qed.

(** Whatever was asked for, the shape [reshape] settles on has no negative
    entry and as many elements as the array. *)
Lemma fix_unknown_dimension_Ok (dims dims' : list Z) (n : Z) :
  0 <= n ->
  fix_unknown_dimension dims n = Ok dims' ->
  Forall (fun d => 0 <= d) dims' /\ prod dims' = n.
Proof.
  intros Hn H.
  destruct (dims_cases dims) as [Hall|[(pre & d & post & -> & Hd & Hpre & Hpost)|Hmany]].
  - rewrite (fix_unknown_dimension_nonneg dims n Hall) in H.
    destruct (n =? prod dims) eqn:E; [|discriminate].
    apply Z.eqb_eq in E. injection H as <-. split; [assumption|lia].
  - rewrite (fix_unknown_dimension_wildcard pre post d n Hpre Hd Hpost) in H.
    set (k := prod pre * prod post) in *.
    destruct (k =? 0) eqn:Ek; [discriminate|]. apply Z.eqb_neq in Ek.
    destruct (n mod k =? 0) eqn:Em; [|discriminate]. apply Z.eqb_eq in Em.
    simpl in H. injection H as <-.
    pose proof (prod_nonneg pre Hpre) as H1. pose proof (prod_nonneg post Hpost) as H2.
    assert (Hk : 0 < k) by (unfold k in *; nia).
    assert (Hq : 0 <= n / k) by (apply Z.div_pos; lia).
    split.
    + apply Forall_app. split; [assumption|]. constructor; assumption.
    + rewrite prod_app. simpl. fold (prod post).
      assert (Hnk : n = k * (n / k)).
      { rewrite (Z.div_mod n k) at 1 by lia. lia. }
      transitivity (k * (n / k)); [unfold k; ring|symmetry; exact Hnk].
  - rewrite (fix_unknown_dimension_two_negatives dims n Hmany) in H. discriminate.
Qed.

(** An array that was decoded is well formed, has the bytes of the payload
    and the dtype the header names. *)
Lemma decode_Ok (md : json) (buf : list byte) (A : ndarray) :
  decode md buf = Ok A ->
  wellformed A /\ data A = buf /\
  exists x, getitem md "dtype" = Ok x /\ np_dtype x = Ok (dtype A).
Proof.
  unfold decode. intros H.
  destruct (getitem md "dtype") as [x|e]; [|discriminate].
  destruct (np_dtype x) as [dt|e] eqn:Hdt; [|discriminate].
  unfold frombuffer in H.
  pose proof (itemsize_pos dt) as Hpos.
  set (n := Z.of_nat (length buf)) in *.
  destruct (n mod itemsize dt =? 0) eqn:Hmod; [|discriminate].
  apply Z.eqb_eq in Hmod.
  destruct (getitem md "shape") as [y|e]; [|discriminate].
  destruct (shape_of_json y) as [dims|e]; [|discriminate].
  unfold reshape, size in H. simpl shape in H. simpl dtype in H. simpl data in H.
  destruct (fix_unknown_dimension dims (prod [n / itemsize dt])) as [dims'|e] eqn:Hfix;
    [|discriminate].
  injection H as <-.
  assert (Hq : 0 <= prod [n / itemsize dt]).
  { simpl. assert (0 <= n / itemsize dt) by (apply Z.div_pos; lia). lia. }
  destruct (fix_unknown_dimension_Ok _ _ _ Hq Hfix) as [Hall Hprod].
  split; [|split].
  - split; [exact Hall|]. unfold size. simpl. rewrite Hprod. simpl.
    fold n. rewrite (Z.div_mod n (itemsize dt)) at 1 by lia. lia.
  - reflexivity.
  - exists x. split; [reflexivity|exact Hdt].
Qed.

End Shapes.

(** ** [recv_array]: every case *)

Section RecvArray.
Import zmq.

Lemma decode_header_any (dt : Dtype) (dims : list Z) (buf : list byte) :
  decode (header (dtype_name dt) dims) buf =
    if Z.of_nat (length buf) mod itemsize dt =? 0
    then match fix_unknown_dimension dims (Z.of_nat (length buf) / itemsize dt) with
         | Ok dims' => Ok {| dtype := dt; shape := dims'; data := buf |}
         | Err e => Err e
         end
    else Err ValueError.
Proof.
  unfold decode.
  rewrite getitem_header_dtype, np_dtype_name, getitem_header_shape.
  unfold frombuffer.
  destruct (Z.of_nat (length buf) mod itemsize dt =? 0); [|reflexivity].
  unfold shape_of_json. rewrite ints_of_json_map.
  unfold reshape, size. simpl shape. simpl dtype. simpl data.
  replace (prod [Z.of_nat (length buf) / itemsize dt])
    with (Z.of_nat (length buf) / itemsize dt) by (simpl; lia).
  reflexivity.
Qed.

Lemma set_pending_same (s : Socket) : Socket.set_pending s (pending s) = s.
Proof. destruct s. reflexivity. Qed.

Lemma stored_same w r s :
  sockets w !! r = Some s -> set_sockets w (<[r := s]> (sockets w)) = w.
Proof.
  intros Hs. destruct w as [imp net socks]. unfold set_sockets. simpl in *.
  rewrite list_insert_id by exact Hs. reflexivity.
Qed.

(** The outcome of [recv_array], case by case. *)
Lemma recv_array_cases w r :
  recv_array r w =
    match sockets w !! r with
    | None => Raise ZMQError w
    | Some s =>
        if closed s then Raise ZMQError w else
        match pending s with
        | [] => Blocked w
        | m1 :: ms =>
            let w1 := set_sockets w (<[r := Socket.set_pending s ms]> (sockets w)) in
            match loads m1 with
            | None => Raise JSONDecodeError w1
            | Some md =>
                match ms with
                | [] => Blocked w1
                | m2 :: rest =>
                    let w2 :=
                      set_sockets w (<[r := Socket.set_pending s rest]> (sockets w)) in
                    match decode md (bytes m2) with
                    | Ok A => Return A w2
                    | Err e => Raise e w2
                    end
                end
            end
        end
    end.
Proof.
  destruct (sockets w !! r) as [s|] eqn:Hs.
  2:{ unfold recv_array, Socket.recv_json, Socket.next, bind, Socket.live.
      rewrite Hs. reflexivity. }
  destruct (closed s) eqn:Hc.
  { unfold recv_array, Socket.recv_json, Socket.next, bind, Socket.live.
    rewrite Hs, Hc. reflexivity. }
  destruct (pending s) as [|m1 ms] eqn:Hp.
  { apply (recv_array_Blocked _ _ _ Hs Hc Hp). }
  cbv zeta. destruct (loads m1) as [md|] eqn:Hl.
  - destruct ms as [|m2 rest].
    + apply (recv_array_Blocked_payload _ _ _ _ _ Hs Hc Hp Hl).
    + apply recv_array_incoming. unfold incoming. rewrite Hs, Hc, Hp, Hl. reflexivity.
  - unfold recv_array, Socket.recv_json.
    unfold bind at 1. unfold bind at 1.
    rewrite (next_Return _ _ _ _ _ Hs Hc Hp), Hl. reflexivity.
Qed.

End RecvArray.

(** X1: whatever the header says, an array that [recv_array] returns has no
    negative dimension and exactly size * itemsize bytes, which are the
    bytes of the payload message, untouched; its dtype is the one the
    header names. *)
Theorem recv_array_wellformed (w : World) (r : nat) (A : ndarray) (w' : World) :
  recv_array r w = Return A w' ->
  wellformed A /\
  exists md buf,
    incoming w r = Some (md, buf, w') /\
    tobytes A = buf /\
    exists x, getitem md "dtype" = Ok x /\ np_dtype x = Ok (dtype A).
Proof.
  intros H. apply recv_array_Return_inv in H as (md & buf & Hin & Hdec).
  apply decode_Ok in Hdec as (Hwf & Hdata & Hdt).
  split; [exact Hwf|]. exists md, buf. repeat split; assumption.
Qed.

Lemma recv_array_wellformed_witness :
  wellformed {| dtype := uint16; shape := [3; 2]; data := repeat x07 12 |} /\
  exists md buf,
    incoming (one_socket (reply (header "uint16" [-1; 2]) (repeat x07 12))) 0
      = Some (md, buf, one_socket []) /\
    tobytes {| dtype := uint16; shape := [3; 2]; data := repeat x07 12 |} = buf /\
    exists x, getitem md "dtype" = Ok x /\ np_dtype x = Ok uint16.
Proof.
  exact (recv_array_wellformed
           (one_socket (reply (header "uint16" [-1; 2]) (repeat x07 12))) 0%nat
           {| dtype := uint16; shape := [3; 2]; data := repeat x07 12 |}
           (one_socket []) eq_refl).
Defined.



(** X3: a shape with two or more negative entries is never accepted: the
    reply is taken from the queue and ValueError is raised, whatever the
    payload. *)
Theorem recv_array_two_wildcards (dt : Dtype) (dims : list Z) (payload : list byte)
    (w : World) (r : nat) (w' : World) :
  incoming w r = Some (header (dtype_name dt) dims, payload, w') ->
  (2 <= negatives dims)%nat ->
  recv_array r w = Raise ValueError w'.
Proof.
  intros Hin Hneg.
  rewrite (recv_array_incoming _ _ _ _ _ Hin), decode_header_any.
  rewrite (fix_unknown_dimension_two_negatives dims _ Hneg).
  destruct (Z.of_nat (length payload) mod itemsize dt =? 0); reflexivity.
Qed.

Lemma recv_array_two_wildcards_witness :
  recv_array 0 (one_socket (reply (header "uint8" [-1; 3; -1]) (repeat x00 6))) =
    Raise ValueError (one_socket []).
Proof.
  apply (recv_array_two_wildcards uint8 [-1; 3; -1] (repeat x00 6)
           (one_socket (reply (header "uint8" [-1; 3; -1]) (repeat x00 6))) 0%nat
           (one_socket []) eq_refl).
  simpl. lia.
Defined.





(** X6: [recv_array] blocks exactly when the socket is open and its queue
    is empty, or holds nothing but a JSON header (which is then taken).  It
    never blocks once two messages are there. *)
Theorem recv_array_blocks_iff (w : World) (r : nat) :
  (exists w', recv_array r w = Blocked w') <->
  exists s,
    sockets w !! r = Some s /\ zmq.closed s = false /\
    (zmq.pending s = [] \/
     exists m1 md, zmq.pending s = [m1] /\ zmq.loads m1 = Some md).
Proof.
  rewrite recv_array_cases. split.
  - intros [w' H].
    destruct (sockets w !! r) as [s|]; [|discriminate].
    destruct (zmq.closed s) eqn:Hc; [discriminate|].
    exists s. split; [reflexivity|]. split; [exact Hc|].
    destruct (zmq.pending s) as [|m1 ms]; [left; reflexivity|].
    cbv zeta in H. destruct (zmq.loads m1) as [md|] eqn:Hl; [|discriminate].
    destruct ms as [|m2 rest].
    + right. exists m1, md. split; [reflexivity|exact Hl].
    + destruct (decode md (zmq.bytes m2)); discriminate.
  - intros (s & Hs & Hc & [Hp|(m1 & md & Hp & Hl)]); rewrite Hs, Hc, Hp.
    + eexists. reflexivity.
    + cbv zeta. rewrite Hl. eexists. reflexivity.
Qed.

Section Frames.

Lemma only_socket_refl r w : only_socket r w w.
Proof. unfold only_socket. auto. Qed.

Lemma only_socket_stored r w s' :
  only_socket r w (set_sockets w (<[r := s']> (sockets w))).
Proof.
  unfold only_socket. simpl. repeat split.
  - apply length_insert.
  - intros r' Hne. apply list_lookup_insert_ne. congruence.
Qed.

Lemma only_socket_trans r w1 w2 w3 :
  only_socket r w1 w2 -> only_socket r w2 w3 -> only_socket r w1 w3.
Proof.
  intros (A1 & B1 & C1 & D1) (A2 & B2 & C2 & D2). unfold only_socket.
  repeat split; try congruence.
  intros r' Hne. rewrite (D2 r' Hne). apply (D1 r' Hne).
Qed.

Lemma took_nothing k s : took_at_most k s s.
Proof.
  exists 0%nat. split; [lia|]. rewrite drop_0. symmetry. apply set_pending_same.
Qed.

Lemma took_some k n s m rest :
  zmq.pending s = (m ++ rest)%list -> length m = n -> (n <= k)%nat ->
  took_at_most k s (Socket.set_pending s rest).
Proof.
  intros Hp Hn Hk. exists n. split; [exact Hk|].
  rewrite Hp, drop_app_length' by (symmetry; exact Hn). reflexivity.
Qed.

End Frames.

Lemma recv_array_only_socket (w : World) (r : nat) :
  only_socket r w (state_of (recv_array r w)).
Proof.
  rewrite recv_array_cases.
  destruct (sockets w !! r) as [s|]; [|apply only_socket_refl].
  destruct (zmq.closed s); [apply only_socket_refl|].
  destruct (zmq.pending s) as [|m1 ms]; [apply only_socket_refl|].
  cbv zeta. destruct (zmq.loads m1) as [md|]; [|apply only_socket_stored].
  destruct ms as [|m2 rest]; [apply only_socket_stored|].
  destruct (decode md (zmq.bytes m2)); apply only_socket_stored.
Qed.

(** X7: in every outcome, [recv_array] has written nothing and has touched
    no other socket: the world differs at most in the socket it was given,
    and that socket differs at most by one or two messages taken from the
    head of its queue. *)
Theorem recv_array_frame (w : World) (r : nat) :
  only_socket r w (state_of (recv_array r w)) /\
  forall s,
    sockets w !! r = Some s ->
    exists s',
      sockets (state_of (recv_array r w)) !! r = Some s' /\ took_at_most 2 s s'.
Proof.
  rewrite recv_array_cases.
  destruct (sockets w !! r) as [s|] eqn:Hs.
  2:{ split; [apply only_socket_refl|]. intros s H. discriminate. }
  assert (Hkeep : forall s0, Some s = Some s0 ->
            exists s', sockets w !! r = Some s' /\ took_at_most 2 s0 s').
  { intros s0 Heq. injection Heq as <-. exists s. split; [exact Hs|apply took_nothing]. }
  assert (Htake : forall m rest s0,
            zmq.pending s = (m ++ rest)%list -> (length m <= 2)%nat -> Some s = Some s0 ->
            exists s',
              sockets (set_sockets w (<[r := Socket.set_pending s rest]> (sockets w))) !! r
                = Some s' /\ took_at_most 2 s0 s').
  { intros m rest s0 Hp Hm Heq. injection Heq as <-. eexists. split.
    - apply (lookup_stored _ _ _ _ Hs).
    - apply (took_some 2 (length m) s m rest Hp eq_refl Hm). }
  destruct (zmq.closed s) eqn:Hc.
  { split; [apply only_socket_refl|exact Hkeep]. }
  destruct (zmq.pending s) as [|m1 ms] eqn:Hp.
  { split; [apply only_socket_refl|exact Hkeep]. }
  cbv zeta.
  destruct (zmq.loads m1) as [md|].
  2:{ split; [apply only_socket_stored|]. intros s0. apply (Htake [m1] ms); [reflexivity|simpl; lia]. }
  destruct ms as [|m2 rest].
  { split; [apply only_socket_stored|]. intros s0. apply (Htake [m1] []); [reflexivity|simpl; lia]. }
  destruct (decode md (zmq.bytes m2));
    (split; [apply only_socket_stored|];
     intros s0; apply (Htake [m1; m2] rest); [reflexivity|simpl; lia]).
Qed.

Lemma recv_array_blocks_iff_witness :
  exists w',
    recv_array 0 (one_socket [{| zmq.bytes := []; zmq.loads := Some (header "uint8" [1]) |}])
    = Blocked w'.
Proof.
  apply (proj2 (recv_array_blocks_iff
                  (one_socket [{| zmq.bytes := []; zmq.loads := Some (header "uint8" [1]) |}])
                  0%nat)).
  eexists. split; [reflexivity|]. split; [reflexivity|].
  right. eexists. eexists. split; reflexivity.
Defined.

Lemma recv_array_frame_witness :
  exists s',
    sockets (state_of (recv_array 0 (RemoteBot.world sample_session))) !! 0%nat = Some s' /\
    took_at_most 2
      (sample_socket [reset_command 80 60]
         (reply (header "uint8" [2; 2; 3]) (repeat x01 12) ++
          reply (header "uint8" [2; 2; 3]) (repeat x02 12))%list) s'.
Proof.
  exact (proj2 (recv_array_frame (RemoteBot.world sample_session) 0%nat) _ eq_refl).
Defined.

(** ** The session in every outcome *)

Section Outcomes.
Import RemoteBot zmq.

Variable Actions : IntEnum.t.

Lemma send_json_cases w r obj :
  Socket.send_json r obj w =
    match sockets w !! r with
    | None => Raise ZMQError w
    | Some s =>
        if closed s then Raise ZMQError w else
        Return tt (set_sockets w (<[r := Socket.set_sent s (sent s ++ [obj])]> (sockets w)))
    end.
Proof.
  unfold Socket.send_json, bind, Socket.live.
  destruct (sockets w !! r) as [s|]; [|reflexivity].
  destruct (closed s); reflexivity.
Qed.

Lemma send_json_frame w r obj :
  only_socket r w (state_of (Socket.send_json r obj w)).
Proof.
  rewrite send_json_cases.
  destruct (sockets w !! r) as [s|]; [|apply only_socket_refl].
  destruct (closed s); [apply only_socket_refl|apply only_socket_stored].
Qed.

(** The outcome of [step], case by case. *)
Lemma step_cases action st :
  step Actions action st =
    match IntEnum.call Actions action with
    | Err e => Raise e st
    | Ok a =>
        match Socket.send_json (socket (self st)) (action_command (IntEnum.name a))
                (world st) with
        | Raise e w1 => Raise e {| self := self st; world := w1 |}
        | Blocked w1 => Blocked {| self := self st; world := w1 |}
        | Return _ w1 =>
            match recv_array (socket (self st)) w1 with
            | Raise e w2 => Raise e {| self := self st; world := w2 |}
            | Blocked w2 => Blocked {| self := self st; world := w2 |}
            | Return A w2 =>
                match step_count (self st) with
                | None =>
                    Raise AttributeError
                      {| self := set_img (self st) (Some A); world := w2 |}
                | Some n =>
                    Return (A, 0, false, false, [])
                      {| self := set_step_count (set_img (self st) (Some A)) (Some (n + 1));
                         world := w2 |}
                end
            end
        end
    end.
Proof.
  unfold step, action_command, bind, gets, of_result, ret, raise.
  destruct (IntEnum.call Actions action) as [a|e]; [|reflexivity].
  unfold lift. cbn [self world].
  destruct (Socket.send_json _ _ (world st)) as [u w1|e w1|w1]; try reflexivity.
  unfold _recv_frame, bind, gets, lift. cbn [self world].
  destruct (recv_array (socket (self st)) w1) as [A w2|e w2|w2]; try reflexivity.
  unfold on_self, modify, attr, bind, gets. cbn [self world].
  change (step_count (set_img (self st) (Some A))) with (step_count (self st)).
  destruct (step_count (self st)); reflexivity.
Qed.

(** The outcome of [reset], case by case. *)
Lemma reset_cases seed options st :
  reset seed options st =
    let o := set_step_count (self st) (Some 0) in
    match Socket.send_json (socket (self st))
            (reset_command (obs_width (self st)) (obs_height (self st))) (world st) with
    | Raise e w1 => Raise e {| self := o; world := w1 |}
    | Blocked w1 => Blocked {| self := o; world := w1 |}
    | Return _ w1 =>
        match recv_array (socket (self st)) w1 with
        | Raise e w2 => Raise e {| self := o; world := w2 |}
        | Blocked w2 => Blocked {| self := o; world := w2 |}
        | Return A w2 => Return (A, []) {| self := set_img o (Some A); world := w2 |}
        end
    end.
Proof.
  unfold reset, reset_command, bind, gets, on_self, modify, ret.
  unfold lift. cbn [self world].
  change (socket (set_step_count (self st) (Some 0))) with (socket (self st)).
  change (obs_width (set_step_count (self st) (Some 0))) with (obs_width (self st)).
  change (obs_height (set_step_count (self st) (Some 0))) with (obs_height (self st)).
  destruct (Socket.send_json _ _ (world st)) as [u w1|e w1|w1]; try reflexivity.
  unfold _recv_frame, bind, gets, lift. cbn [self world].
  change (socket (set_step_count (self st) (Some 0))) with (socket (self st)).
  destruct (recv_array (socket (self st)) w1) as [A w2|e w2|w2]; reflexivity.
Qed.

Lemma same_config_refl o : same_config o o.
Proof. unfold same_config. repeat split. Qed.

(** One exchange, whatever its outcome, stays on the socket it was given. *)
Lemma exchange_frame w r obj w1 u :
  Socket.send_json r obj w = Return u w1 ->
  only_socket r w (state_of (recv_array r w1)).
Proof.
  intros Hsend.
  pose proof (send_json_frame w r obj) as H1. rewrite Hsend in H1. simpl in H1.
  eapply only_socket_trans; [exact H1|]. apply recv_array_only_socket.
Qed.

End Outcomes.

Lemma step_Raise_decode (Actions : IntEnum.t) (st : RemoteBot.State)
    (s : zmq.Socket) (m1 m2 : zmq.msg) (rest : list zmq.msg) (md : json) (e : exn)
    (action : Z) (a : IntEnum.member) :
  sockets (RemoteBot.world st) !! RemoteBot.socket (RemoteBot.self st) = Some s ->
  zmq.closed s = false ->
  zmq.pending s = m1 :: m2 :: rest ->
  zmq.loads m1 = Some md ->
  decode md (zmq.bytes m2) = Err e ->
  IntEnum.call Actions action = Ok a ->
  RemoteBot.step Actions action st =
    Raise e
      {| RemoteBot.self := RemoteBot.self st;
         RemoteBot.world :=
           set_sockets (RemoteBot.world st)
             (<[RemoteBot.socket (RemoteBot.self st) :=
                  exchanged s (action_command (IntEnum.name a)) rest]>
                (sockets (RemoteBot.world st))) |}.
Proof.
  intros Hs Hc Hp Hl Hdec Hcall.
  destruct (exchange_intro _ _ _ (action_command (IntEnum.name a)) _ _ _ _ Hs Hc Hp Hl)
    as (w1 & Hsend & Hin).
  rewrite step_cases, Hcall, Hsend, (recv_array_incoming _ _ _ _ _ Hin), Hdec.
  reflexivity.
Qed.

(** X8: a reply that does not decode is an error of that call only.  The
    command has been written and the reply taken from the queue, the
    exception of the decoder is raised, and the session object is as it was
    before a [step] (the cached frame is not replaced and the step is not
    counted); before a [reset] except that the step counter is already 0. *)
Theorem failed_exchange_keeps_frame (Actions : IntEnum.t) (st : RemoteBot.State)
    (s : zmq.Socket) (m1 m2 : zmq.msg) (rest : list zmq.msg) (md : json) (e : exn) :
  sockets (RemoteBot.world st) !! RemoteBot.socket (RemoteBot.self st) = Some s ->
  zmq.closed s = false ->
  zmq.pending s = m1 :: m2 :: rest ->
  zmq.loads m1 = Some md ->
  decode md (zmq.bytes m2) = Err e ->
  let after cmd :=
    set_sockets (RemoteBot.world st)
      (<[RemoteBot.socket (RemoteBot.self st) := exchanged s cmd rest]>
         (sockets (RemoteBot.world st))) in
  (forall action a,
      IntEnum.call Actions action = Ok a ->
      RemoteBot.step Actions action st =
        Raise e {| RemoteBot.self := RemoteBot.self st;
                   RemoteBot.world := after (action_command (IntEnum.name a)) |}) /\
  (forall seed options,
      RemoteBot.reset seed options st =
        Raise e
          {| RemoteBot.self := RemoteBot.set_step_count (RemoteBot.self st) (Some 0);
             RemoteBot.world :=
               after (reset_command (RemoteBot.obs_width (RemoteBot.self st))
                        (RemoteBot.obs_height (RemoteBot.self st))) |}).
Proof.
  intros Hs Hc Hp Hl Hdec after. split.
  - intros action a Hcall.
    apply (step_Raise_decode Actions st s m1 m2 rest md e action a Hs Hc Hp Hl Hdec Hcall).
  - intros seed options.
    destruct (exchange_intro _ _ _
                (reset_command (RemoteBot.obs_width (RemoteBot.self st))
                   (RemoteBot.obs_height (RemoteBot.self st))) _ _ _ _ Hs Hc Hp Hl)
      as (w1 & Hsend & Hin).
    rewrite reset_cases. cbv zeta.
    rewrite Hsend, (recv_array_incoming _ _ _ _ _ Hin), Hdec. reflexivity.
Qed.

Lemma failed_exchange_keeps_frame_witness :
  RemoteBot.step sample_Actions 1 (camera_session 14000) =
    Raise ValueError
      {| RemoteBot.self := sample_bot;
         RemoteBot.world := sample_world [action_command "turn_right"] [] |}.
Proof.
  apply (proj1 (failed_exchange_keeps_frame sample_Actions (camera_session 14000)
                  (sample_socket []
                     (reply (header "uint8" [60; 80; 3]) (repeat x00 (Z.to_nat 14000))))
                  _ _ [] (header "uint8" [60; 80; 3]) ValueError
                  eq_refl eq_refl eq_refl eq_refl ltac:(vm_compute; reflexivity))
          1 (member "turn_right" 1) eq_refl).
Defined.

(** X9: no error is fatal to the session.  After a [step] whose reply did
    not decode, the next [step] on the same session writes its command,
    takes the next reply and returns its frame; only this second step is
    counted, and both commands are on the wire. *)
Theorem step_after_failed_step (Actions : IntEnum.t) (st : RemoteBot.State)
    (s : zmq.Socket) (m1 m2 m3 m4 : zmq.msg) (rest : list zmq.msg)
    (md md' : json) (e : exn) (A : ndarray) (n : Z)
    (action1 action2 : Z) (a1 a2 : IntEnum.member) :
  sockets (RemoteBot.world st) !! RemoteBot.socket (RemoteBot.self st) = Some s ->
  zmq.closed s = false ->
  zmq.pending s = m1 :: m2 :: m3 :: m4 :: rest ->
  zmq.loads m1 = Some md -> decode md (zmq.bytes m2) = Err e ->
  zmq.loads m3 = Some md' -> decode md' (zmq.bytes m4) = Ok A ->
  RemoteBot.step_count (RemoteBot.self st) = Some n ->
  IntEnum.call Actions action1 = Ok a1 ->
  IntEnum.call Actions action2 = Ok a2 ->
  exists st1,
    RemoteBot.step Actions action1 st = Raise e st1 /\
    RemoteBot.step Actions action2 st1 =
      Return (A, 0, false, false, [])
        {| RemoteBot.self :=
             RemoteBot.set_step_count
               (RemoteBot.set_img (RemoteBot.self st) (Some A)) (Some (n + 1));
           RemoteBot.world :=
             set_sockets (RemoteBot.world st)
               (<[RemoteBot.socket (RemoteBot.self st) :=
                    {| zmq.peer := zmq.peer s; zmq.closed := zmq.closed s;
                       zmq.sent :=
                         (zmq.sent s ++
                          [action_command (IntEnum.name a1);
                           action_command (IntEnum.name a2)])%list;
                       zmq.pending := rest |}]>
                  (sockets (RemoteBot.world st))) |}.
Proof.
  intros Hs Hc Hp Hl Hdec Hl' Hdec' Hn Hcall1 Hcall2.
  eexists. split.
  { apply (step_Raise_decode Actions st s m1 m2 (m3 :: m4 :: rest) md e action1 a1
             Hs Hc Hp Hl Hdec Hcall1). }
  set (st1 := {| RemoteBot.self := RemoteBot.self st;
                 RemoteBot.world :=
                   set_sockets (RemoteBot.world st)
                     (<[RemoteBot.socket (RemoteBot.self st) :=
                          exchanged s (action_command (IntEnum.name a1))
                            (m3 :: m4 :: rest)]>
                        (sockets (RemoteBot.world st))) |}).
  assert (Hs1 : sockets (RemoteBot.world st1) !! RemoteBot.socket (RemoteBot.self st1)
                = Some (exchanged s (action_command (IntEnum.name a1)) (m3 :: m4 :: rest))).
  { apply (lookup_stored _ _ _ _ Hs). }
  destruct (exchange_intro _ _ _ (action_command (IntEnum.name a2)) m3 m4 rest md'
              Hs1 Hc eq_refl Hl') as (w3 & Hsend & Hin).
  rewrite (step_Return Actions action2 st1 a2 n md' _ A w3 _ Hcall2 Hsend Hin Hdec' Hn).
  f_equal. unfold st1. simpl. f_equal.
  rewrite list_insert_insert_eq. unfold exchanged, Socket.set_pending, Socket.set_sent.
  simpl. rewrite <- app_assoc. reflexivity.
Qed.

Lemma step_after_failed_step_witness :
  exists st1,
    RemoteBot.step sample_Actions 0
      {| RemoteBot.self := sample_bot;
         RemoteBot.world :=
           sample_world []
             (reply (header "uint8" [5]) [x00] ++
              reply (header "uint8" [2; 2; 3]) (repeat x02 12))%list |}
      = Raise ValueError st1 /\
    RemoteBot.step sample_Actions 2 st1 =
      Return (tiny x02, 0, false, false, [])
        {| RemoteBot.self :=
             RemoteBot.set_step_count
               (RemoteBot.set_img sample_bot (Some (tiny x02))) (Some 1);
           RemoteBot.world :=
             sample_world [action_command "turn_left"; action_command "move_forward"]
               [] |}.
Proof.
  exact (step_after_failed_step sample_Actions
           {| RemoteBot.self := sample_bot;
              RemoteBot.world :=
                sample_world []
                  (reply (header "uint8" [5]) [x00] ++
                   reply (header "uint8" [2; 2; 3]) (repeat x02 12))%list |}
           _ _ _ _ _ [] (header "uint8" [5]) (header "uint8" [2; 2; 3]) ValueError
           (tiny x02) 0 0 2 (member "turn_left" 0) (member "move_forward" 2)
           eq_refl eq_refl eq_refl eq_refl eq_refl eq_refl eq_refl eq_refl eq_refl eq_refl).
Defined.

(** X10: whatever the outcome of a [step] or of a [reset] (it returns,
    raises or blocks), the attributes assigned by the constructor, among
    them [latest_img], which stays as the constructor left it, and the
    window are unchanged, and the world differs at most in the socket of the
    session: no other socket is read or written, none is created. *)
Theorem session_frame (Actions : IntEnum.t) (st : RemoteBot.State) :
  let framed st' :=
    same_config (RemoteBot.self st) (RemoteBot.self st') /\
    RemoteBot.window (RemoteBot.self st') = RemoteBot.window (RemoteBot.self st) /\
    only_socket (RemoteBot.socket (RemoteBot.self st))
      (RemoteBot.world st) (RemoteBot.world st') in
  (forall action, framed (state_of (RemoteBot.step Actions action st))) /\
  (forall seed options, framed (state_of (RemoteBot.reset seed options st))).
Proof.
  intros framed. unfold framed. split.
  - intros action. rewrite step_cases.
    destruct (IntEnum.call Actions action) as [a|e].
    2:{ simpl. split; [unfold same_config; simpl; repeat split|]. split; [reflexivity|apply only_socket_refl]. }
    pose proof (send_json_frame (RemoteBot.world st) (RemoteBot.socket (RemoteBot.self st))
                  (action_command (IntEnum.name a))) as Hsend.
    destruct (Socket.send_json _ _ (RemoteBot.world st)) as [u w1|e w1|w1] eqn:Esend;
      try (simpl in *; split; [unfold same_config; simpl; repeat split|]; split; [reflexivity|exact Hsend]).
    pose proof (exchange_frame _ _ _ _ _ Esend) as Hex.
    destruct (recv_array _ w1) as [A w2|e w2|w2];
      try (simpl in *; split; [unfold same_config; simpl; repeat split|]; split; [reflexivity|exact Hex]).
    destruct (RemoteBot.step_count (RemoteBot.self st));
      (simpl in *; split; [unfold same_config; simpl; repeat split|]; split; [reflexivity|exact Hex]).
  - intros seed options. rewrite reset_cases. cbv zeta.
    pose proof (send_json_frame (RemoteBot.world st) (RemoteBot.socket (RemoteBot.self st))
                  (reset_command (RemoteBot.obs_width (RemoteBot.self st))
                     (RemoteBot.obs_height (RemoteBot.self st)))) as Hsend.
    destruct (Socket.send_json _ _ (RemoteBot.world st)) as [u w1|e w1|w1] eqn:Esend;
      try (simpl in *; split; [unfold same_config; simpl; repeat split|]; split; [reflexivity|exact Hsend]).
    pose proof (exchange_frame _ _ _ _ _ Esend) as Hex.
    destruct (recv_array _ w1) as [A w2|e w2|w2];
      (simpl in *; split; [unfold same_config; simpl; repeat split|]; split; [reflexivity|exact Hex]).
Qed.

(** X11: [reset] sets the step counter to 0 before it does anything that can
    fail: the counter is 0 in every outcome, and unless the call returns the
    cached frame is the old one.  A [step] that does not return leaves the
    counter alone. *)
Theorem counter_in_every_outcome (Actions : IntEnum.t) (st : RemoteBot.State) :
  (forall seed options,
      RemoteBot.step_count (RemoteBot.self (state_of (RemoteBot.reset seed options st)))
        = Some 0 /\
      ((forall res st', RemoteBot.reset seed options st <> Return res st') ->
       RemoteBot.img (RemoteBot.self (state_of (RemoteBot.reset seed options st)))
         = RemoteBot.img (RemoteBot.self st))) /\
  (forall action,
      (forall res st', RemoteBot.step Actions action st <> Return res st') ->
      RemoteBot.step_count (RemoteBot.self (state_of (RemoteBot.step Actions action st)))
        = RemoteBot.step_count (RemoteBot.self st)).
Proof.
  split.
  - intros seed options. rewrite reset_cases. cbv zeta.
    destruct (Socket.send_json _ _ (RemoteBot.world st)) as [u w1|e w1|w1];
      try (simpl; split; [reflexivity|intros _; reflexivity]).
    destruct (recv_array _ w1) as [A w2|e w2|w2];
      try (simpl; split; [reflexivity|intros _; reflexivity]).
    simpl. split; [reflexivity|]. intros Hnot. exfalso. eapply Hnot. reflexivity.
  - intros action. rewrite step_cases.
    destruct (IntEnum.call Actions action) as [a|e]; [|intros _; reflexivity].
    destruct (Socket.send_json _ _ (RemoteBot.world st)) as [u w1|e w1|w1];
      try (intros _; reflexivity).
    destruct (recv_array _ w1) as [A w2|e w2|w2]; try (intros _; reflexivity).
    destruct (RemoteBot.step_count (RemoteBot.self st)) as [n|] eqn:Hn.
    + intros Hnot. exfalso. eapply Hnot. reflexivity.
    + intros _. simpl. exact Hn.
Qed.

Lemma session_frame_witness :
  same_config sample_bot
    (RemoteBot.self (state_of (RemoteBot.step sample_Actions 9 sample_session))) /\
  same_config sample_bot
    (RemoteBot.self (state_of (RemoteBot.reset None None (camera_session 14000)))).
Proof.
  destruct (session_frame sample_Actions sample_session) as [Hstep _].
  destruct (session_frame sample_Actions (camera_session 14000)) as [_ Hreset].
  split.
  - exact (proj1 (Hstep 9)).
  - exact (proj1 (Hreset None None)).
Defined.

Lemma counter_in_every_outcome_witness :
  RemoteBot.step_count
    (RemoteBot.self (state_of (RemoteBot.step sample_Actions 9 sample_session)))
  = RemoteBot.step_count sample_bot.
Proof.
  apply (proj2 (counter_in_every_outcome sample_Actions sample_session) 9).
  intros res st' H. discriminate H.
Defined.

(** ** Counting steps *)

Section Counting.
Import RemoteBot.

Variable Actions : IntEnum.t.

Lemma perform_all_app_inv cs1 cs2 st st' :
  perform_all Actions (cs1 ++ cs2) st = Return tt st' ->
  exists mid,
    perform_all Actions cs1 st = Return tt mid /\
    perform_all Actions cs2 mid = Return tt st'.
Proof.
  revert st. induction cs1 as [|c cs1 IH]; intros st H.
  - exists st. split; [reflexivity|exact H].
  - simpl in H. bind_inv H. destruct a.
    destruct (IH _ H) as (mid & H1 & H2).
    exists mid. split; [|exact H2].
    simpl. unfold bind. rewrite H0. exact H1.
Qed.

Lemma perform_steps_count acts :
  forall st st' n,
    perform_all Actions (map Step acts) st = Return tt st' ->
    step_count (self st) = Some n ->
    step_count (self st') = Some (n + Z.of_nat (length acts)).
Proof.
  induction acts as [|action acts IH]; intros st st' n H Hn.
  - simpl in H. unfold ret in H. inversion H; subst. rewrite Hn. f_equal. simpl. lia.
  - simpl in H. bind_inv H. bind_inv H0.
    unfold ret in H0. inversion H0; subst. clear H0.
    apply step_Return_inv in H1
      as (a' & n' & md & buf & A & w1 & w2 & _ & _ & _ & _ & Hn' & _ & ->).
    rewrite Hn in Hn'. injection Hn' as <-.
    rewrite (IH _ _ (n + 1) H eq_refl). f_equal.
    change (length (action :: acts)) with (S (length acts)). lia.
Qed.

End Counting.

(** X12: the step counter counts the steps since the last [reset].  After
    any calls, a [reset] and then [k] steps that all returned, it is exactly
    [k], whatever it was before. *)
Theorem step_count_counts_steps (Actions : IntEnum.t) (before : list call)
    (acts : list Z) (st st' : RemoteBot.State) :
  perform_all Actions (before ++ Reset :: map Step acts) st = Return tt st' ->
  RemoteBot.step_count (RemoteBot.self st') = Some (Z.of_nat (length acts)).
Proof.
  intros H.
  apply perform_all_app_inv in H as (mid & _ & H).
  simpl in H. bind_inv H. bind_inv H0.
  unfold ret in H0. inversion H0; subst. clear H0.
  apply reset_Return_inv in H1 as (md & buf & A & w1 & w2 & _ & _ & _ & _ & ->).
  apply (perform_steps_count Actions acts _ _ 0 H). reflexivity.
Qed.

Lemma step_count_counts_steps_witness :
  RemoteBot.step_count
    (RemoteBot.set_step_count
       (RemoteBot.set_img sample_bot (Some (tiny x02))) (Some 1))
  = Some (Z.of_nat (length [2])).
Proof.
  exact (step_count_counts_steps sample_Actions [] [2] sample_session
           {| RemoteBot.self :=
                RemoteBot.set_step_count
                  (RemoteBot.set_img sample_bot (Some (tiny x02))) (Some 1);
              RemoteBot.world :=
                sample_world
                  [reset_command 80 60; reset_command 80 60; action_command "move_forward"]
                  [] |}
           eq_refl).
Defined.

Lemma call_In (E : IntEnum.t) (v : Z) :
  In v (IntEnum.values E) -> exists a, IntEnum.call E v = Ok a.
Proof.
  induction E as [|m E IH]; simpl; intros H; [contradiction|].
  destruct (IntEnum.value m =? v) eqn:Ev; [exists m; reflexivity|].
  apply Z.eqb_neq in Ev. destruct H as [H|H]; [contradiction|]. apply IH. exact H.
Qed.

(** X13: when the enumeration numbers its members 0, 1, 2, ... in order, the
    action space a constructed session declares holds exactly the action
    ids [step] accepts. *)
Theorem action_space_matches_step (Actions : IntEnum.t) (serverAddr : string)
    (serverPort obs_width obs_height : Z) (render_mode : option string)
    (w w' : World) (o : RemoteBot.t) :
  RemoteBot.__init__ Actions serverAddr serverPort obs_width obs_height render_mode w
    = Return o w' ->
  IntEnum.values Actions = map Z.of_nat (seq 0 (length Actions)) ->
  forall action,
    spaces.contains (RemoteBot.action_space o) action = true <->
    exists a, IntEnum.call Actions action = Ok a.
Proof.
  intros Hinit Hvals action.
  apply init_Return_inv in Hinit as (m1 & m2 & rest & md & A & _ & _ & _ & _ & -> & _).
  simpl. unfold IntEnum.len.
  rewrite andb_true_iff, Z.leb_le, Z.ltb_lt.
  assert (Hin : In action (IntEnum.values Actions) <->
                0 <= action < Z.of_nat (length Actions)).
  { rewrite Hvals, in_map_iff. split.
    - intros (k & <- & Hk). apply in_seq in Hk. lia.
    - intros Hr. exists (Z.to_nat action). split; [lia|]. apply in_seq. lia. }
  rewrite <- Hin. split.
  - apply call_In.
  - intros [a Ha]. apply call_Ok_In in Ha as [Hm <-].
    unfold IntEnum.values. apply in_map. exact Hm.
Qed.

Lemma action_space_matches_step_witness :
  (spaces.contains (RemoteBot.action_space sample_bot) 7 = true <->
   exists a, IntEnum.call sample_Actions 7 = Ok a) /\
  (spaces.contains (RemoteBot.action_space sample_bot) 8 = true <->
   exists a, IntEnum.call sample_Actions 8 = Ok a).
Proof.
  split.
  - exact (action_space_matches_step sample_Actions "minibot1.local" SERVER_PORT 80 60
             None lab (RemoteBot.world sample_session) sample_bot eq_refl eq_refl 7).
  - exact (action_space_matches_step sample_Actions "minibot1.local" SERVER_PORT 80 60
             None lab (RemoteBot.world sample_session) sample_bot eq_refl eq_refl 8).
Defined.



(** ** [render] *)

(** X15: up to the point where it would draw, [render] changes neither the
    session nor the world, whatever its outcome.  In "rgb_array" mode, after
    a [step] or a [reset] that returned, it returns the very frame that call
    returned, without any traffic on the socket. *)
Theorem render_entry_modes (Actions : IntEnum.t) (spec : option string)
    (st : RemoteBot.State) :
  state_of (render_entry spec st) = st /\
  (RemoteBot.render_mode (RemoteBot.self st) = Some "rgb_array" ->
   (forall action A reward termination truncation info st',
       RemoteBot.step Actions action st
         = Return (A, reward, termination, truncation, info) st' ->
       render_entry spec st' = Return (Frame A) st') /\
   (forall seed options A info st',
       RemoteBot.reset seed options st = Return (A, info) st' ->
       render_entry spec st' = Return (Frame A) st')).
Proof.
  split.
  - unfold render_entry, bind, gets.
    destruct (RemoteBot.render_mode (RemoteBot.self st)) as [mode|].
    + destruct (String.eqb mode "rgb_array"); [|reflexivity].
      unfold RemoteBot.attr, bind, gets.
      destruct (RemoteBot.img (RemoteBot.self st)); reflexivity.
    + destruct spec; reflexivity.
  - intros Hmode. split.
    + intros action A reward termination truncation info st' H.
      apply step_Return_inv in H
        as (a & n & md & buf & A' & w1 & w2 & _ & _ & _ & _ & _ & Hres & ->).
      injection Hres as -> _ _ _ _.
      unfold render_entry, bind, gets. simpl. rewrite Hmode. reflexivity.
    + intros seed options A info st' H.
      apply reset_Return_inv in H as (md & buf & A' & w1 & w2 & _ & _ & _ & Hres & ->).
      injection Hres as -> _.
      unfold render_entry, bind, gets. simpl. rewrite Hmode. reflexivity.
Qed.

Lemma render_entry_modes_witness :
  render_entry None
    {| RemoteBot.self :=
         RemoteBot.set_step_count
           (RemoteBot.set_img (fresh_bot sample_Actions 80 60 (Some "rgb_array") 0)
              (Some (tiny x01))) (Some 1);
       RemoteBot.world :=
         sample_world [action_command "turn_left"]
           (reply (header "uint8" [2; 2; 3]) (repeat x02 12)) |}
  = Return (Frame (tiny x01))
      {| RemoteBot.self :=
           RemoteBot.set_step_count
             (RemoteBot.set_img (fresh_bot sample_Actions 80 60 (Some "rgb_array") 0)
                (Some (tiny x01))) (Some 1);
         RemoteBot.world :=
           sample_world [action_command "turn_left"]
             (reply (header "uint8" [2; 2; 3]) (repeat x02 12)) |}.
Proof.
  destruct (render_entry_modes sample_Actions None
              {| RemoteBot.self :=
                   RemoteBot.set_step_count
                     (fresh_bot sample_Actions 80 60 (Some "rgb_array") 0) (Some 0);
                 RemoteBot.world :=
                   sample_world []
                     (reply (header "uint8" [2; 2; 3]) (repeat x01 12) ++
                      reply (header "uint8" [2; 2; 3]) (repeat x02 12))%list |})
    as (_ & Hrgb).
  destruct (Hrgb eq_refl) as [Hstep _].
  exact (Hstep 0 (tiny x01) 0 false false [] _ eq_refl).
Defined.

Section Rows.

Lemma rows_length k n (l : list byte) : length (rows k n l) = k.
Proof.
  revert l. induction k as [|k IH]; intros l; simpl; [reflexivity|].
  rewrite IH. reflexivity.
Qed.

Lemma rows_uniform k n (l : list byte) :
  (k * n <= length l)%nat -> Forall (fun b => length b = n) (rows k n l).
Proof.
  revert l. induction k as [|k IH]; intros l H; simpl; constructor.
  - rewrite length_take. lia.
  - apply IH. rewrite length_drop. lia.
Qed.

Lemma concat_rows k n (l : list byte) :
  length l = (k * n)%nat -> concat (rows k n l) = l.
Proof.
  revert l. induction k as [|k IH]; intros l H; simpl.
  - destruct l; [reflexivity|discriminate].
  - rewrite IH by (rewrite length_drop; lia). apply take_drop.
Qed.

Lemma rows_concat n (bs : list (list byte)) :
  Forall (fun b => length b = n) bs -> rows (length bs) n (concat bs) = bs.
Proof.
  induction 1 as [|b bs Hb _ IH]; simpl; [reflexivity|].
  rewrite take_app_length' by (symmetry; exact Hb).
  rewrite drop_app_length' by (symmetry; exact Hb).
  rewrite IH. reflexivity.
Qed.

Lemma length_concat_uniform n (bs : list (list byte)) :
  Forall (fun b => length b = n) bs -> length (concat bs) = (length bs * n)%nat.
Proof.
  induction 1 as [|b bs Hb _ IH]; simpl; [reflexivity|].
  rewrite length_app, IH, Hb. reflexivity.
Qed.

Lemma Forall_rev_uniform n (bs : list (list byte)) :
  Forall (fun b => length b = n) bs -> Forall (fun b => length b = n) (rev bs).
Proof.
  intros H. apply Forall_forall. intros b Hb.
  rewrite Forall_forall in H. apply H. apply list_elem_of_In.
  apply in_rev. apply list_elem_of_In. exact Hb.
Qed.

(** The buffer of a well-formed array with a first axis is made of
    [d0] blocks of [prod rest * itemsize] bytes. *)
Lemma wellformed_blocks (A : ndarray) (d0 : Z) (rest : list Z) :
  wellformed A -> shape A = d0 :: rest ->
  length (data A) =
    (Z.to_nat d0 * Z.to_nat (prod rest * itemsize (dtype A)))%nat.
Proof.
  intros [Hdims Hlen] Hshape. unfold size in Hlen. rewrite Hshape in Hlen, Hdims.
  simpl in Hlen. fold (prod rest) in Hlen.
  inversion Hdims as [|? ? Hd0 Hrest]; subst.
  pose proof (prod_nonneg rest Hrest) as Hp.
  pose proof (itemsize_pos (dtype A)) as Hi.
  rewrite <- Z2Nat.inj_mul by nia.
  apply Nat2Z.inj. rewrite Z2Nat.id by nia. lia.
Qed.

End Rows.

(** X16: what [render] hands to the window.  For a well-formed frame of
    shape (h, w, ...) the image is w wide and h high, in format "RGB" with a
    pitch of 3 * w bytes, and has as many bytes as the frame; its rows are
    the rows of the frame in reverse order.  The byte count is height *
    pitch, as the pitch promises, exactly when the frame is empty or a pixel
    takes three bytes.  A frame without dimensions makes numpy raise
    AxisError, a frame with one dimension IndexError. *)
Theorem render_image_spec (img : ndarray) :
  (forall h w rest,
      wellformed img -> shape img = h :: w :: rest ->
      exists im,
        render_image img = inr im /\
        image.width im = w /\ image.height im = h /\
        image.fmt im = "RGB" /\ image.pitch im = w * 3 /\
        length (image.pixels im) = length (data img) /\
        rows (Z.to_nat h) (Z.to_nat (prod (w :: rest) * itemsize (dtype img)))
          (image.pixels im)
          = rev (rows (Z.to_nat h) (Z.to_nat (prod (w :: rest) * itemsize (dtype img)))
                   (data img)) /\
        (Z.of_nat (length (image.pixels im)) = image.height im * image.pitch im <->
         h * w = 0 \/ prod rest * itemsize (dtype img) = 3)) /\
  (shape img = [] -> render_image img = inl AxisError) /\
  (forall d, shape img = [d] -> render_image img = inl IndexError).
Proof.
  split; [|split].
  - intros h w rest Hwf Hshape.
    pose proof (wellformed_blocks img h (w :: rest) Hwf Hshape) as Hlen.
    set (k := Z.to_nat h) in *.
    set (n := Z.to_nat (prod (w :: rest) * itemsize (dtype img))) in *.
    assert (Hrows : Forall (fun b => length b = n) (rows k n (data img))).
    { apply rows_uniform. lia. }
    assert (Hrev : Forall (fun b => length b = n) (rev (rows k n (data img)))).
    { apply Forall_rev_uniform. exact Hrows. }
    assert (Hpix : length (concat (rev (rows k n (data img)))) = length (data img)).
    { rewrite (length_concat_uniform n _ Hrev), length_rev, rows_length. lia. }
    exists {| image.width := w; image.height := h; image.fmt := "RGB";
              image.pixels := concat (rev (rows k n (data img)));
              image.pitch := w * 3 |}.
    split.
    { unfold render_image, flip0. rewrite Hshape. reflexivity. }
    cbn [image.width image.height image.fmt image.pitch image.pixels].
    repeat split.
    + exact Hpix.
    + pose proof (rows_concat n _ Hrev) as Hrc.
      rewrite length_rev, rows_length in Hrc. exact Hrc.
    + intros Heq. rewrite Hpix in Heq.
      destruct Hwf as [Hdims Hsize]. unfold size in Hsize. rewrite Hshape in Hsize.
      simpl in Hsize. fold (prod rest) in Hsize.
      destruct (Z.eq_dec (h * w) 0) as [Hz|Hnz]; [left; exact Hz|right].
      apply (Z.mul_reg_l _ _ (h * w) Hnz).
      transitivity (Z.of_nat (length (data img))); [rewrite Hsize; ring|rewrite Heq; ring].
    + intros Hcase. rewrite Hpix.
      destruct Hwf as [Hdims Hsize]. unfold size in Hsize. rewrite Hshape in Hsize.
      simpl in Hsize. fold (prod rest) in Hsize. rewrite Hsize.
      destruct Hcase as [Hz|H3].
      * replace (h * (w * prod rest) * itemsize (dtype img))
          with (h * w * (prod rest * itemsize (dtype img))) by ring.
        replace (h * (w * 3)) with (h * w * 3) by ring.
        rewrite Hz. reflexivity.
      * replace (h * (w * prod rest) * itemsize (dtype img))
          with (h * w * (prod rest * itemsize (dtype img))) by ring.
        rewrite H3. ring.
  - intros Hshape. unfold render_image, flip0. rewrite Hshape. reflexivity.
  - intros d Hshape. unfold render_image, flip0. rewrite Hshape. reflexivity.
Qed.

Lemma render_image_spec_witness :
  exists im,
    render_image {| dtype := uint8; shape := [2; 1; 3];
                    data := [x01; x02; x03; x04; x05; x06] |} = inr im /\
    image.width im = 1 /\ image.height im = 2 /\
    image.fmt im = "RGB" /\ image.pitch im = 1 * 3 /\
    length (image.pixels im) = 6%nat /\
    rows 2 3 (image.pixels im) = [[x04; x05; x06]; [x01; x02; x03]] /\
    (Z.of_nat (length (image.pixels im)) = image.height im * image.pitch im <->
     2 * 1 = 0 \/ 3 = 3).
Proof.
  apply (proj1 (render_image_spec
                  {| dtype := uint8; shape := [2; 1; 3];
                     data := [x01; x02; x03; x04; x05; x06] |}) 2 1 [3]).
  - split; [repeat constructor; lia|reflexivity].
  - reflexivity.
Defined.

(** X17: the flip [render] applies is its own inverse on well-formed frames:
    it keeps dtype and shape, yields a well-formed array, and flipping the
    result gives the frame back, byte for byte. *)
Theorem flip0_involutive (A B : ndarray) :
  wellformed A -> flip0 A = inr B ->
  dtype B = dtype A /\ shape B = shape A /\ wellformed B /\ flip0 B = inr A.
Proof.
  intros Hwf Hflip. unfold flip0 in Hflip.
  destruct (shape A) as [|d0 rest] eqn:Hshape; [discriminate|].
  injection Hflip as <-.
  pose proof (wellformed_blocks A d0 rest Hwf Hshape) as Hlen.
  set (k := Z.to_nat d0) in *.
  set (n := Z.to_nat (prod rest * itemsize (dtype A))) in *.
  assert (Hrows : Forall (fun b => length b = n) (rows k n (data A))).
  { apply rows_uniform. lia. }
  assert (Hrev : Forall (fun b => length b = n) (rev (rows k n (data A)))).
  { apply Forall_rev_uniform. exact Hrows. }
  assert (Hpix : length (concat (rev (rows k n (data A)))) = length (data A)).
  { rewrite (length_concat_uniform n _ Hrev), length_rev, rows_length. lia. }
  split; [reflexivity|]. split; [reflexivity|]. split.
  - destruct Hwf as [Hdims Hsize]. split; simpl.
    + rewrite <- Hshape. exact Hdims.
    + unfold size in *. simpl. rewrite Hpix. rewrite Hshape in Hsize. exact Hsize.
  - unfold flip0. simpl. fold k. fold n.
    pose proof (rows_concat n _ Hrev) as Hrc.
    rewrite length_rev, rows_length in Hrc. rewrite Hrc.
    rewrite rev_involutive, (concat_rows k n (data A) Hlen).
    rewrite <- Hshape. destruct A. reflexivity.
Qed.

Lemma flip0_involutive_witness :
  dtype {| dtype := uint16; shape := [3; 1]; data := [x06; x05; x04; x03; x02; x01] |}
    = uint16 /\
  shape {| dtype := uint16; shape := [3; 1]; data := [x06; x05; x04; x03; x02; x01] |}
    = [3; 1] /\
  wellformed {| dtype := uint16; shape := [3; 1];
                data := [x06; x05; x04; x03; x02; x01] |} /\
  flip0 {| dtype := uint16; shape := [3; 1]; data := [x06; x05; x04; x03; x02; x01] |}
    = inr {| dtype := uint16; shape := [3; 1];
             data := [x02; x01; x04; x03; x06; x05] |}.
Proof.
  apply (flip0_involutive
           {| dtype := uint16; shape := [3; 1]; data := [x02; x01; x04; x03; x06; x05] |}
           {| dtype := uint16; shape := [3; 1]; data := [x06; x05; x04; x03; x02; x01] |}).
  - split; [repeat constructor; lia|reflexivity].
  - reflexivity.
Defined.

(** ** The simulated environments *)

Lemma Discrete_contains (n x : Z) :
  spaces.contains (spaces.Discrete (n + 1)) x = true <-> 0 <= x <= n.
Proof. simpl. rewrite andb_true_iff, Z.leb_le, Z.ltb_lt. lia. Qed.

(** X18: how the three constructors depend on the base constructor.
    Hallway refuses a length below 2 with AssertionError, whatever the base
    constructor would do.  Otherwise each constructor passes on the error of
    the base constructor, raises AttributeError when the enumeration has no
    move_forward, and else returns the object the base constructor left
    (called with max_episode_steps 250, 400 and 100) with nothing changed
    but the action space, which holds the integers from 0 to move_forward. *)
Theorem env_constructors (super__init__ : MiniWorldEnv.init) (kwargs : dict) (length : Z) :
  (length < 2 ->
   Hallway.__init__ super__init__ length kwargs = Err AssertionError) /\
  (forall e,
      super__init__ 250 MiniWorldEnv.DEFAULT_PARAMS false kwargs = Err e ->
      2 <= length ->
      Hallway.__init__ super__init__ length kwargs = Err e) /\
  (forall e,
      super__init__ 400 MiniWorldEnv.DEFAULT_PARAMS false kwargs = Err e ->
      ThreeRooms.__init__ super__init__ kwargs = Err e) /\
  (forall e,
      super__init__ 100 MiniWorldEnv.sim_params true kwargs = Err e ->
      SimToRealGoTo.__init__ super__init__ kwargs = Err e) /\
  (forall self,
      IntEnum.getattr (MiniWorldEnv.actions self) "move_forward" = Err AttributeError ->
      (super__init__ 250 MiniWorldEnv.DEFAULT_PARAMS false kwargs = Ok self ->
       2 <= length ->
       Hallway.__init__ super__init__ length kwargs = Err AttributeError) /\
      (super__init__ 400 MiniWorldEnv.DEFAULT_PARAMS false kwargs = Ok self ->
       ThreeRooms.__init__ super__init__ kwargs = Err AttributeError) /\
      (super__init__ 100 MiniWorldEnv.sim_params true kwargs = Ok self ->
       SimToRealGoTo.__init__ super__init__ kwargs = Err AttributeError)) /\
  (forall env,
      Hallway.__init__ super__init__ length kwargs = Ok env ->
      2 <= length /\ Hallway.length env = length /\
      exists self,
        super__init__ 250 MiniWorldEnv.DEFAULT_PARAMS false kwargs = Ok self /\
        built_on self (Hallway.base env)) /\
  (forall env,
      ThreeRooms.__init__ super__init__ kwargs = Ok env ->
      exists self,
        super__init__ 400 MiniWorldEnv.DEFAULT_PARAMS false kwargs = Ok self /\
        built_on self env) /\
  (forall env,
      SimToRealGoTo.__init__ super__init__ kwargs = Ok env ->
      exists self,
        super__init__ 100 MiniWorldEnv.sim_params true kwargs = Ok self /\
        built_on self env).
Proof.
  assert (Hbuilt : forall self mf,
             IntEnum.getattr (MiniWorldEnv.actions self) "move_forward" = Ok mf ->
             built_on self
               (MiniWorldEnv.set_action_space self
                  (spaces.Discrete (IntEnum.value mf + 1)))).
  { intros self mf Hmf. exists mf. split; [exact Hmf|]. split; [reflexivity|].
    intros x. apply Discrete_contains. }
  split; [|split; [|split; [|split; [|split; [|split; [|split]]]]]].
  - intros Hlen. unfold Hallway.__init__.
    assert (Hge : (length >=? 2) = false) by (rewrite Z.geb_leb; apply Z.leb_gt; lia).
    rewrite Hge. reflexivity.
  - intros e Hsuper Hlen. unfold Hallway.__init__.
    assert (Hge : (length >=? 2) = true) by (apply Z.geb_le; lia).
    rewrite Hge, Hsuper. reflexivity.
  - intros e Hsuper. unfold ThreeRooms.__init__. rewrite Hsuper. reflexivity.
  - intros e Hsuper. unfold SimToRealGoTo.__init__. rewrite Hsuper. reflexivity.
  - intros self Hattr. split; [|split].
    + intros Hsuper Hlen. unfold Hallway.__init__.
      assert (Hge : (length >=? 2) = true) by (apply Z.geb_le; lia).
      rewrite Hge, Hsuper, Hattr. reflexivity.
    + intros Hsuper. unfold ThreeRooms.__init__. rewrite Hsuper, Hattr. reflexivity.
    + intros Hsuper. unfold SimToRealGoTo.__init__. rewrite Hsuper, Hattr. reflexivity.
  - intros env H. unfold Hallway.__init__ in H.
    destruct (length >=? 2) eqn:Hge; [|discriminate]. apply Z.geb_le in Hge.
    simpl in H.
    destruct (super__init__ 250 _ false kwargs) as [self|e]; [|discriminate].
    destruct (IntEnum.getattr _ _) as [mf|e] eqn:Hmf; [|discriminate].
    injection H as <-. split; [lia|]. split; [reflexivity|].
    exists self. split; [reflexivity|]. apply Hbuilt. exact Hmf.
  - intros env H. unfold ThreeRooms.__init__ in H.
    destruct (super__init__ 400 _ false kwargs) as [self|e]; [|discriminate].
    destruct (IntEnum.getattr _ _) as [mf|e] eqn:Hmf; [|discriminate].
    injection H as <-. exists self. split; [reflexivity|]. apply Hbuilt. exact Hmf.
  - intros env H. unfold SimToRealGoTo.__init__ in H.
    destruct (super__init__ 100 _ true kwargs) as [self|e]; [|discriminate].
    destruct (IntEnum.getattr _ _) as [mf|e] eqn:Hmf; [|discriminate].
    injection H as <-. exists self. split; [reflexivity|]. apply Hbuilt. exact Hmf.
Qed.

Lemma env_constructors_witness :
  Hallway.__init__ sample_super 1 [] = Err AssertionError /\
  (exists self,
      sample_super 100 MiniWorldEnv.sim_params true [] = Ok self /\
      built_on self
        {| MiniWorldEnv.actions := sample_Actions;
           MiniWorldEnv.action_space := spaces.Discrete 3;
           MiniWorldEnv.max_episode_steps := 100;
           MiniWorldEnv.params := MiniWorldEnv.sim_params;
           MiniWorldEnv.domain_rand := true |}).
Proof.
  destruct (env_constructors sample_super [] 1) as (Hshort & _ & _ & _ & _ & _ & _ & Hsim).
  split.
  - apply Hshort. lia.
  - apply Hsim. reflexivity.
Defined.

(** X19: the [step] overrides.  ThreeRooms.step returns what the base step
    returned, unchanged.  Hallway.step and SimToRealGoTo.step are the same
    function: they pass on an exception of the base step and never touch the
    observation, the truncation flag or the info; near the box they add the
    box reward and set termination, away from it they return the base
    result as it is, so a termination set by the base step is never
    cleared. *)
Theorem env_steps (Obs R Info : Type) (add : R -> R -> R)
    (super_step : result (step_result Obs R Info)) (near : bool) (_reward : R) :
  ThreeRooms_step Obs R Info super_step = super_step /\
  SimToRealGoTo_step Obs R Info add super_step near _reward
    = Hallway_step Obs R Info add super_step near _reward /\
  (forall e,
      super_step = Err e ->
      Hallway_step Obs R Info add super_step near _reward = Err e) /\
  (forall obs reward termination truncation info,
      super_step = Ok (obs, reward, termination, truncation, info) ->
      Hallway_step Obs R Info add super_step near _reward =
        Ok (obs, (if near then add reward _reward else reward),
            termination || near, truncation, info)).
Proof.
  split; [|split; [|split]].
  - destruct super_step as [[[[[obs reward] termination] truncation] info]|e];
      reflexivity.
  - reflexivity.
  - intros e ->. reflexivity.
  - intros obs reward termination truncation info ->. simpl.
    destruct near; [|rewrite orb_false_r; reflexivity].
    rewrite orb_true_r. reflexivity.
Qed.

Lemma env_steps_witness :
  Hallway_step nat Z unit Z.add (Ok (7%nat, 0, true, false, tt)) false 1 =
    Ok (7%nat, 0, true || false, false, tt) /\
  Hallway_step nat Z unit Z.add (Ok (7%nat, 0, false, true, tt)) true 1 =
    Ok (7%nat, 0 + 1, false || true, true, tt).
Proof.
  split.
  - exact (proj2 (proj2 (proj2 (env_steps nat Z unit Z.add
                                  (Ok (7%nat, 0, true, false, tt)) false 1)))
             7%nat 0 true false tt eq_refl).
  - exact (proj2 (proj2 (proj2 (env_steps nat Z unit Z.add
                                  (Ok (7%nat, 0, false, true, tt)) true 1)))
             7%nat 0 false true tt eq_refl).
Defined.

(** ** More on the session *)

(** X20: [close] does not end the session.  A [step] made after [close] has
    the outcome it would have had without it: the same result or the same
    exception, the same traffic on the socket, the same step counter. *)
Theorem step_after_close (Actions : IntEnum.t) (st : RemoteBot.State) (action : Z) :
  let closed := state_of (RemoteBot.close st) in
  RemoteBot.world closed = RemoteBot.world st /\
  match RemoteBot.step Actions action st, RemoteBot.step Actions action closed with
  | Return res st1, Return res' st2 =>
      res' = res /\ RemoteBot.world st2 = RemoteBot.world st1 /\
      RemoteBot.step_count (RemoteBot.self st2) = RemoteBot.step_count (RemoteBot.self st1)
  | Raise e st1, Raise e' st2 =>
      e' = e /\ RemoteBot.world st2 = RemoteBot.world st1
  | Blocked st1, Blocked st2 => RemoteBot.world st2 = RemoteBot.world st1
  | _, _ => False
  end.
Proof.
  intros closed.
  assert (Hc : exists win, closed = {| RemoteBot.self := RemoteBot.set_window (RemoteBot.self st) win;
                                       RemoteBot.world := RemoteBot.world st |}).
  { unfold closed, RemoteBot.close, bind, gets.
    destruct (RemoteBot.window (RemoteBot.self st)) as [win|] eqn:Hwin.
    - eexists. reflexivity.
    - exists None. simpl. destruct st as [o w]. simpl in *.
      destruct o. simpl in *. subst. reflexivity. }
  destruct Hc as [win ->]. split; [reflexivity|].
  rewrite !step_cases. cbn [RemoteBot.self RemoteBot.world].
  change (RemoteBot.socket (RemoteBot.set_window (RemoteBot.self st) win))
    with (RemoteBot.socket (RemoteBot.self st)).
  change (RemoteBot.step_count (RemoteBot.set_window (RemoteBot.self st) win))
    with (RemoteBot.step_count (RemoteBot.self st)).
  destruct (IntEnum.call Actions action) as [a|e]; [|split; reflexivity].
  destruct (Socket.send_json _ _ (RemoteBot.world st)) as [u w1|e w1|w1];
    [|split; reflexivity|reflexivity].
  destruct (recv_array _ w1) as [A w2|e w2|w2]; [|split; reflexivity|reflexivity].
  destruct (RemoteBot.step_count (RemoteBot.self st)); repeat split; reflexivity.
Qed.



(** X22: while the peer sends nothing, [step] and [reset] block for ever
    with their command already written; the blocked [step] has not been
    counted and the cached frame is the old one. *)
Theorem silent_peer_blocks (Actions : IntEnum.t) (st : RemoteBot.State) (s : zmq.Socket) :
  sockets (RemoteBot.world st) !! RemoteBot.socket (RemoteBot.self st) = Some s ->
  zmq.closed s = false ->
  zmq.pending s = [] ->
  let after cmd :=
    set_sockets (RemoteBot.world st)
      (<[RemoteBot.socket (RemoteBot.self st) :=
           Socket.set_sent s (zmq.sent s ++ [cmd])%list]>
         (sockets (RemoteBot.world st))) in
  (forall action a,
      IntEnum.call Actions action = Ok a ->
      RemoteBot.step Actions action st =
        Blocked {| RemoteBot.self := RemoteBot.self st;
                   RemoteBot.world := after (action_command (IntEnum.name a)) |}) /\
  (forall seed options,
      RemoteBot.reset seed options st =
        Blocked
          {| RemoteBot.self := RemoteBot.set_step_count (RemoteBot.self st) (Some 0);
             RemoteBot.world :=
               after (reset_command (RemoteBot.obs_width (RemoteBot.self st))
                        (RemoteBot.obs_height (RemoteBot.self st))) |}).
Proof.
  intros Hs Hc Hp after.
  assert (Hblock : forall cmd, recv_array (RemoteBot.socket (RemoteBot.self st)) (after cmd)
                               = Blocked (after cmd)).
  { intros cmd. eapply recv_array_Blocked.
    - apply (lookup_stored _ _ _ _ Hs).
    - exact Hc.
    - exact Hp. }
  split.
  - intros action a Hcall.
    rewrite step_cases, Hcall, (send_json_Return _ _ _ _ Hs Hc).
    fold (after (action_command (IntEnum.name a))). rewrite Hblock. reflexivity.
  - intros seed options. rewrite reset_cases. cbv zeta.
    rewrite (send_json_Return _ _ _ _ Hs Hc).
    fold (after (reset_command (RemoteBot.obs_width (RemoteBot.self st))
                   (RemoteBot.obs_height (RemoteBot.self st)))).
    rewrite Hblock. reflexivity.
Qed.

Lemma silent_peer_blocks_witness :
  RemoteBot.step sample_Actions 2
    {| RemoteBot.self := sample_bot; RemoteBot.world := sample_world [] [] |}
  = Blocked {| RemoteBot.self := sample_bot;
               RemoteBot.world := sample_world [action_command "move_forward"] [] |}.
Proof.
  exact (proj1 (silent_peer_blocks sample_Actions
                  {| RemoteBot.self := sample_bot; RemoteBot.world := sample_world [] [] |}
                  (sample_socket [] []) eq_refl eq_refl eq_refl)
           2 (member "move_forward" 2) eq_refl).
Defined.

(** X23: called on a session without a render mode, [render] returns no
    frame and does not get to the window.  It warns and returns [None] when
    the environment carries a registration; when it carries none, raising
    AttributeError is all it does, since the text of the warning names the
    registration.  In every mode but "rgb_array" and none, it goes on to
    draw. *)
Theorem render_without_mode (spec : option string) (st : RemoteBot.State) :
  (RemoteBot.render_mode (RemoteBot.self st) = None ->
   (spec = None -> render_entry spec st = Raise AttributeError st) /\
   (forall id, spec = Some id -> render_entry spec st = Return Warned st)) /\
  (forall A st',
      render_entry spec st = Return (Frame A) st' ->
      RemoteBot.render_mode (RemoteBot.self st) = Some "rgb_array" /\
      RemoteBot.img (RemoteBot.self st) = Some A) /\
  (forall mode,
      RemoteBot.render_mode (RemoteBot.self st) = Some mode ->
      mode <> "rgb_array" ->
      render_entry spec st = Return Drawing st).
Proof.
  split; [|split].
  - intros Hmode. unfold render_entry, bind, gets. rewrite Hmode. split.
    + intros ->. reflexivity.
    + intros id ->. reflexivity.
  - intros A st' H. unfold render_entry, bind, gets in H.
    destruct (RemoteBot.render_mode (RemoteBot.self st)) as [mode|].
    + destruct (String.eqb mode "rgb_array") eqn:E; [|discriminate].
      apply String.eqb_eq in E. subst mode.
      unfold RemoteBot.attr, bind, gets, ret, raise in H.
      destruct (RemoteBot.img (RemoteBot.self st)) as [A0|]; [|discriminate].
      inversion H. split; reflexivity.
    + destruct spec; discriminate.
  - intros mode Hmode Hne. unfold render_entry, bind, gets. rewrite Hmode.
    apply String.eqb_neq in Hne. rewrite Hne. reflexivity.
Qed.

Lemma render_without_mode_witness :
  render_entry None sample_session = Raise AttributeError sample_session /\
  render_entry (Some "MiniWorld-RemoteBot-v0") sample_session = Return Warned sample_session.
Proof.
  split.
  - exact (proj1 (proj1 (render_without_mode None sample_session) eq_refl) eq_refl).
  - exact (proj2 (proj1 (render_without_mode (Some "MiniWorld-RemoteBot-v0") sample_session)
                    eq_refl) _ eq_refl).
Defined.
